(** * cqlguery: a self-healing session over gocql / gocqlx

    Shallow embedding of [connect.go]: the cluster options, the per-call
    query options, the three query methods, the liveness probe and the
    reconnection loop [HandleConnect], followed by the properties of the
    specification that were checked against them.

    The driver (packages gocql and gocqlx) and the Go runtime (goroutines,
    timers, contexts) are not part of the package.  Driver values are
    modelled as plain data, driver answers arrive as events, and builder
    calls on a query are recorded in the order they are made.  Where a
    property depends on what the driver does with a request of this
    package, that is stated as a contract the driver obeys. *)

From stdpp Require Import base numbers list strings.
From Stdlib Require Import Sorted.

Local Open Scope string_scope.
Local Open Scope Z_scope.
Local Open Scope list_scope.

(** ** Package time *)

Module time.
(** [time.Duration] is an int64 count of nanoseconds. *)
Definition Duration := Z.
Definition Nanosecond : Duration := 1.
Definition Millisecond : Duration := 1000000.
Definition Second : Duration := 1000000000.
End time.

(** ** Package gocql: the values the package reads and writes *)

Module gocql.
(** [type Consistency uint16] with the driver's named levels. *)
Definition Consistency := N.
Definition Any : Consistency := 0%N.
Definition One : Consistency := 1%N.
Definition Two : Consistency := 2%N.
Definition Three : Consistency := 3%N.
Definition Quorum : Consistency := 4%N.
Definition All : Consistency := 5%N.
Definition LocalQuorum : Consistency := 6%N.

(** The interface [RetryPolicy], by the implementations the driver ships. *)
Inductive RetryPolicy :=
| ExponentialBackoffRetryPolicy (NumRetries : Z) (Min Max : time.Duration)
| SimpleRetryPolicy (NumRetries : Z)
| DowngradingConsistencyRetryPolicy (ConsistencyLevelsToTry : list Consistency).

Inductive HostSelectionPolicy :=
| RoundRobinHostPolicy
| TokenAwareHostPolicy (fallback : HostSelectionPolicy).

Record PasswordAuthenticator := {
  Username : string;
  Password : string;
}.

(** The fields of [ClusterConfig] the package touches. A primed field bears
    the name of its type; [HostSelectionPolicy'] is the driver's
    [PoolConfig.HostSelectionPolicy]. *)
Record ClusterConfig := {
  Hosts : list string;
  Keyspace : string;
  CQLVersion : string;
  ProtoVersion : Z;
  Timeout : time.Duration;
  Authenticator : option PasswordAuthenticator;
  RetryPolicy' : option RetryPolicy;
  HostSelectionPolicy' : option HostSelectionPolicy;
  Consistency' : Consistency;
}.

(** [NewCluster()] called without hosts, as gocql v1.6.0 (go.mod) fills it. *)
Definition NewCluster : ClusterConfig := {|
  Hosts := [];
  Keyspace := "";
  CQLVersion := "3.0.0";
  ProtoVersion := 0;
  Timeout := 11 * time.Second;
  Authenticator := None;
  RetryPolicy' := None;
  HostSelectionPolicy' := None;
  Consistency' := Quorum;
|}.

(** Field assignments [config.F = v]. *)
Definition set_Hosts (v : list string) (c : ClusterConfig) : ClusterConfig :=
  {| Hosts := v; Keyspace := Keyspace c; CQLVersion := CQLVersion c;
     ProtoVersion := ProtoVersion c; Timeout := Timeout c;
     Authenticator := Authenticator c; RetryPolicy' := RetryPolicy' c;
     HostSelectionPolicy' := HostSelectionPolicy' c;
     Consistency' := Consistency' c |}.
Definition set_Keyspace (v : string) (c : ClusterConfig) : ClusterConfig :=
  {| Hosts := Hosts c; Keyspace := v; CQLVersion := CQLVersion c;
     ProtoVersion := ProtoVersion c; Timeout := Timeout c;
     Authenticator := Authenticator c; RetryPolicy' := RetryPolicy' c;
     HostSelectionPolicy' := HostSelectionPolicy' c;
     Consistency' := Consistency' c |}.
Definition set_CQLVersion (v : string) (c : ClusterConfig) : ClusterConfig :=
  {| Hosts := Hosts c; Keyspace := Keyspace c; CQLVersion := v;
     ProtoVersion := ProtoVersion c; Timeout := Timeout c;
     Authenticator := Authenticator c; RetryPolicy' := RetryPolicy' c;
     HostSelectionPolicy' := HostSelectionPolicy' c;
     Consistency' := Consistency' c |}.
Definition set_ProtoVersion (v : Z) (c : ClusterConfig) : ClusterConfig :=
  {| Hosts := Hosts c; Keyspace := Keyspace c; CQLVersion := CQLVersion c;
     ProtoVersion := v; Timeout := Timeout c;
     Authenticator := Authenticator c; RetryPolicy' := RetryPolicy' c;
     HostSelectionPolicy' := HostSelectionPolicy' c;
     Consistency' := Consistency' c |}.
Definition set_Timeout (v : time.Duration) (c : ClusterConfig) : ClusterConfig :=
  {| Hosts := Hosts c; Keyspace := Keyspace c; CQLVersion := CQLVersion c;
     ProtoVersion := ProtoVersion c; Timeout := v;
     Authenticator := Authenticator c; RetryPolicy' := RetryPolicy' c;
     HostSelectionPolicy' := HostSelectionPolicy' c;
     Consistency' := Consistency' c |}.
Definition set_RetryPolicy (v : option RetryPolicy) (c : ClusterConfig)
    : ClusterConfig :=
  {| Hosts := Hosts c; Keyspace := Keyspace c; CQLVersion := CQLVersion c;
     ProtoVersion := ProtoVersion c; Timeout := Timeout c;
     Authenticator := Authenticator c; RetryPolicy' := v;
     HostSelectionPolicy' := HostSelectionPolicy' c;
     Consistency' := Consistency' c |}.
Definition set_HostSelectionPolicy (v : option HostSelectionPolicy)
    (c : ClusterConfig) : ClusterConfig :=
  {| Hosts := Hosts c; Keyspace := Keyspace c; CQLVersion := CQLVersion c;
     ProtoVersion := ProtoVersion c; Timeout := Timeout c;
     Authenticator := Authenticator c; RetryPolicy' := RetryPolicy' c;
     HostSelectionPolicy' := v;
     Consistency' := Consistency' c |}.
Definition set_Consistency (v : Consistency) (c : ClusterConfig)
    : ClusterConfig :=
  {| Hosts := Hosts c; Keyspace := Keyspace c; CQLVersion := CQLVersion c;
     ProtoVersion := ProtoVersion c; Timeout := Timeout c;
     Authenticator := Authenticator c; RetryPolicy' := RetryPolicy' c;
     HostSelectionPolicy' := HostSelectionPolicy' c;
     Consistency' := v |}.
End gocql.

(** ** Cluster options (connect.go, lines 12-79) *)

(** [type Option func(config *gocql.ClusterConfig)]: the closure mutates the
    configuration it is handed, here it returns the mutated value. *)
Definition Option := gocql.ClusterConfig -> gocql.ClusterConfig.
Definition Options := list Option.

Definition Option_apply (o : Option) (c : gocql.ClusterConfig)
    : gocql.ClusterConfig := o c.

(** [append(opts, o...)] *)
Definition Options_add (opts : Options) (o : list Option) : Options :=
  opts ++ o.

(** [for _, o := range opts { o.apply(c) }] *)
Fixpoint Options_apply (opts : Options) (c : gocql.ClusterConfig)
    : gocql.ClusterConfig :=
  match opts with
  | [] => c
  | o :: rest => Options_apply rest (Option_apply o c)
  end.

Definition WithHosts (hosts : list string) : Option :=
  fun config => gocql.set_Hosts hosts config.

Definition WithKeyspace (Keyspace : string) : Option :=
  fun config => gocql.set_Keyspace Keyspace config.

Definition WithConsistency (Consistency : gocql.Consistency) : Option :=
  fun config => gocql.set_Consistency Consistency config.

Definition WithTimeout (Timeout : time.Duration) : Option :=
  fun config => gocql.set_Timeout Timeout config.


Definition version : string := "3.11".

Definition DefaultOption : Options :=
  [ WithTimeout (10 * time.Second);
    WithConsistency gocql.One;
    (fun config =>
       gocql.set_RetryPolicy
         (Some (gocql.ExponentialBackoffRetryPolicy 5
                  (time.Millisecond * 5) (time.Second * 5))) config);
    (fun config =>
       gocql.set_HostSelectionPolicy
         (Some (gocql.TokenAwareHostPolicy gocql.RoundRobinHostPolicy)) config)
  ].

Definition defaultOption : Options := DefaultOption.

(** ** Package gocqlx: sessions, queries and their builder calls *)

(** [context.Context] values are told apart by an identifier; whether the
    governing one is cancelled is part of the state of the world below. *)
Definition Context := nat.

(** Go's [any], for the values handed to [Bind]. *)
Inductive any :=
| AnyString (v : string)
| AnyInt (v : Z)
| AnyBool (v : bool).

(** Go's [error] values: those the driver returns, told apart by their
    description, and those made in this package by [errors.New]. *)
Inductive error :=
| DriverError (description : string)
| errors_New (text : string).

Module gocqlx.
(** [*gocqlx.Session]: the identity of one live driver session. *)
Definition Session := nat.

(** A builder call made on a query. *)
Inductive Call :=
| CallStrict
| CallIdempotent (value : bool)
| CallConsistency (c : gocql.Consistency)
| CallRetryPolicy (r : gocql.RetryPolicy).

(** [*gocqlx.Queryx]: what it was created from, and the builder calls made
    on it so far, oldest first. *)
Record Queryx := {
  q_session : Session;
  q_ctx : Context;
  q_stmt : string;
  q_names : list string;
  q_calls : list Call;
}.

Definition ContextQuery (s : Session) (ctx : Context) (stmt : string)
    (names : list string) : Queryx :=
  {| q_session := s; q_ctx := ctx; q_stmt := stmt; q_names := names;
     q_calls := [] |}.

Definition call (c : Call) (q : Queryx) : Queryx :=
  {| q_session := q_session q; q_ctx := q_ctx q; q_stmt := q_stmt q;
     q_names := q_names q; q_calls := q_calls q ++ [c] |}.

Definition Strict (q : Queryx) : Queryx := call CallStrict q.
Definition Idempotent (value : bool) (q : Queryx) : Queryx :=
  call (CallIdempotent value) q.
Definition Consistency (c : gocql.Consistency) (q : Queryx) : Queryx :=
  call (CallConsistency c) q.
Definition RetryPolicy (r : gocql.RetryPolicy) (q : Queryx) : Queryx :=
  call (CallRetryPolicy r) q.

(** The destination pointer of [Get] and [Select]. *)
Inductive Dest :=
| PtrString
| PtrStruct (type_name : string)
| PtrSlice (type_name : string).

(** Running a query: the terminal method called on it. *)
Inductive Request :=
| Get (q : Queryx) (dest : Dest)
| Select (q : Queryx) (dest : Dest)
| Iter (q : Queryx).

Definition query_of (r : Request) : Queryx :=
  match r with
  | Get q _ => q
  | Select q _ => q
  | Iter q => q
  end.

(** What the driver answers to a request that scans into a [*string]: the
    error it returns (by its description) and the string the destination holds afterwards (the
    destination starts out empty). *)
Record Answer := {
  answer_err : option string;
  answer_string : string;
}.
End gocqlx.

(** ** Per-call query options (connect.go, lines 159-231) *)

(** Pointer fields are [None] when nil. *)
Record QueryOption := {
  strict : option bool;
  idenpoten : option bool;
  con : option gocql.Consistency;
  rp : option gocql.RetryPolicy;
  value : list any;
  names : list string;
}.

(** [var opt QueryOption] *)
Definition QueryOption_zero : QueryOption :=
  {| strict := None; idenpoten := None; con := None; rp := None;
     value := []; names := [] |}.

Definition QueryOption_apply (qo : QueryOption) (q : gocqlx.Queryx)
    : gocqlx.Queryx :=
  let q := match strict qo with
           | Some true => gocqlx.Strict q
           | _ => q
           end in
  let q := match idenpoten qo with
           | Some i => gocqlx.Idempotent i q
           | None => q
           end in
  let q := match con qo with
           | Some c => gocqlx.Consistency c q
           | None => q
           end in
  let q := match rp qo with
           | Some r => gocqlx.RetryPolicy r q
           | None => q
           end in
  q.

(** [type QueryOptionFunc func(qo *QueryOption)] *)
Definition QueryOptionFunc := QueryOption -> QueryOption.

Definition QueryOptionFunc_apply (o : QueryOptionFunc) (qo : QueryOption)
    : QueryOption := o qo.

Definition Strict : QueryOptionFunc :=
  fun qo =>
    {| strict := Some true; idenpoten := idenpoten qo; con := con qo;
       rp := rp qo; value := value qo; names := names qo |}.

Definition Idenpotent (i : bool) : QueryOptionFunc :=
  fun qo =>
    {| strict := strict qo; idenpoten := Some i; con := con qo;
       rp := rp qo; value := value qo; names := names qo |}.

Definition Consistency (c : gocql.Consistency) : QueryOptionFunc :=
  fun qo =>
    {| strict := strict qo; idenpoten := idenpoten qo; con := Some c;
       rp := rp qo; value := value qo; names := names qo |}.

Definition RetryPolicy (r : gocql.RetryPolicy) : QueryOptionFunc :=
  fun qo =>
    {| strict := strict qo; idenpoten := idenpoten qo; con := con qo;
       rp := Some r; value := value qo; names := names qo |}.

Definition Bind (v : list any) : QueryOptionFunc :=
  fun qo =>
    {| strict := strict qo; idenpoten := idenpoten qo; con := con qo;
       rp := rp qo; value := v; names := names qo |}.

Definition Names (ns : list string) : QueryOptionFunc :=
  fun qo =>
    {| strict := strict qo; idenpoten := idenpoten qo; con := con qo;
       rp := rp qo; value := value qo; names := ns |}.

Definition QueryOptions := list QueryOptionFunc.

(** [for _, o := range opts { o.apply(qo) }] *)
Fixpoint QueryOptions_apply (opts : QueryOptions) (qo : QueryOption)
    : QueryOption :=
  match opts with
  | [] => qo
  | o :: rest => QueryOptions_apply rest (QueryOptionFunc_apply o qo)
  end.

(** ** Sessions and the query methods (connect.go, lines 101-104, 233-256) *)

Record Session := {
  Session_options : Options;
  Session_s : gocqlx.Session;
}.

Definition Unwrap (s : Session) : gocqlx.Session := Session_s s.

Definition Session_Get (s : Session) (ctx : Context) (query : string)
    (dest : gocqlx.Dest) (optionFunc : list QueryOptionFunc)
    : gocqlx.Request :=
  let opt := QueryOptions_apply optionFunc QueryOption_zero in
  gocqlx.Get
    (QueryOption_apply opt
       (gocqlx.ContextQuery (Session_s s) ctx query (names opt)))
    dest.

Definition Session_Iter (s : Session) (ctx : Context) (query : string)
    (optionFunc : list QueryOptionFunc) : gocqlx.Request :=
  let opt := QueryOptions_apply optionFunc QueryOption_zero in
  gocqlx.Iter
    (QueryOption_apply opt
       (gocqlx.ContextQuery (Session_s s) ctx query (names opt))).

Definition Session_Select (s : Session) (ctx : Context) (query : string)
    (dest : gocqlx.Dest) (optionFunc : list QueryOptionFunc)
    : gocqlx.Request :=
  let opt := QueryOptions_apply optionFunc QueryOption_zero in
  gocqlx.Select
    (gocqlx.ContextQuery (Session_s s) ctx query (names opt))
    dest.

(** ** The liveness probe (connect.go, lines 145-157) *)

Definition pingQuery : string := "SELECT uuid() FROM system.local;".

(** [driver] is the answer of the driver to the request [Select] issues. *)
Definition Session_Ping (driver : gocqlx.Request -> gocqlx.Answer)
    (s : Session) (ctx : Context) : option error :=
  let answer := driver (Session_Select s ctx pingQuery gocqlx.PtrString []) in
  let uid := gocqlx.answer_string answer in
  match gocqlx.answer_err answer with
  | Some err => Some (DriverError err)
  | None =>
      if String.eqb uid "" then Some (errors_New "empty uuid from db")
      else None
  end.

(** ** Connecting (connect.go, lines 81-99 and 135-143) *)

(** The state of one [HandleConnect] goroutine: where it stands in the loop,
    its timer and the [Session] it was started on. *)
Inductive PC :=
| Spawned                      (* started by [go], not yet scheduled *)
| Waiting                      (* blocked in the [select] *)
| Pinging                      (* inside [s.Ping(ctx)] *)
| Reconnecting (a : nat)       (* inside [s.Connect(ctx)], loop counter [a] *)
| Returned.                    (* the function has returned *)

Inductive Kind :=
| Probe (on : gocqlx.Session)
| Factory.

(** One call of the prober or of the factory, as the loop makes it: when it
    was made and whether the governing context was already cancelled. *)
Record Invocation := {
  inv_kind : Kind;
  inv_at : Z;
  inv_ctx_done : bool;
}.

Record Goroutine := {
  g_session : Session;
  g_ctx : Context;
  g_pc : PC;
  (** [time.Timer]: [Some t] when armed to fire at [t], [None] once its
      channel has been received from (or it was stopped). *)
  g_timer : option Z;
  (** The calls made so far, newest first. *)
  g_log : list Invocation;
}.

(** Lines 82-85: the configuration handed to [cluster.CreateSession()]. *)
Definition Connect_cluster (options : list Option) : gocql.ClusterConfig :=
  let cluster := gocql.NewCluster in
  let cluster := Options_apply (Options_add defaultOption options) cluster in
  let cluster := gocql.set_CQLVersion "3.11" cluster in
  let cluster := gocql.set_ProtoVersion 3 cluster in
  cluster.

(** [go session.HandleConnect(ctx)] *)
Definition go_HandleConnect (session : Session) (ctx : Context) : Goroutine :=
  {| g_session := session; g_ctx := ctx; g_pc := Spawned; g_timer := None;
     g_log := [] |}.

(** [Connect]: [CreateSession] is the driver's [cluster.CreateSession()],
    which returns a session or an error (by its description). On success the result is the new session together with the goroutine
    the call has started. *)
Definition Connect
    (CreateSession : gocql.ClusterConfig -> gocqlx.Session + string)
    (ctx : Context) (options : list Option) : Session * Goroutine + error :=
  let cluster := Connect_cluster options in
  match CreateSession cluster with
  | inr err => inr (DriverError err)
  | inl sess =>
      let session := {| Session_options := []; Session_s := sess |} in
      inl (session, go_HandleConnect session ctx)
  end.

(** [Session.Connect]: the session after the call, the goroutines started
    meanwhile, and the error returned. *)
Definition Session_Connect
    (CreateSession : gocql.ClusterConfig -> gocqlx.Session + string)
    (ctx : Context) (s : Session) : Session * list Goroutine * option error :=
  match Connect CreateSession ctx [] with
  | inr err => (s, [], Some err)
  | inl (ss, started) =>
      ({| Session_options := Session_options s; Session_s := Session_s ss |},
       [started], None)
  end.

(** ** The reconnection loop (connect.go, lines 106-134) *)

Definition reconnectAttempts : nat := 10.
Definition pingInterval : time.Duration := time.Second.

(** What the environment lets a goroutine do next. *)
Inductive Step :=
| Start                                  (* line 110, [time.NewTimer(0)] *)
| SelectDone                             (* line 116, [<-ctx.Done()] *)
| SelectTimer                            (* line 118, [<-ticker.C]; Ping is called *)
| PingReturn (answer : gocqlx.Answer)    (* line 120, Ping returns *)
| ConnectReturn (created : gocqlx.Session + string).  (* line 126, Connect returns *)

Definition record (k : Kind) (now : Z) (done : bool) (g : Goroutine)
    : list Invocation :=
  {| inv_kind := k; inv_at := now; inv_ctx_done := done |} :: g_log g.

(** One step of [HandleConnect] at time [now], with [done] telling whether
    the governing context is cancelled. [None]: the step is not possible in
    this state. The second component lists the goroutines started. *)
Definition HandleConnect_step (now : Z) (done : bool) (g : Goroutine)
    (st : Step) : option (Goroutine * list Goroutine) :=
  match g_pc g, st with
  | Spawned, Start =>
      Some ({| g_session := g_session g; g_ctx := g_ctx g; g_pc := Waiting;
               g_timer := Some (now + 0); g_log := g_log g |}, [])
  | Waiting, SelectDone =>
      if done then
        Some ({| g_session := g_session g; g_ctx := g_ctx g;
                 g_pc := Returned; g_timer := None; g_log := g_log g |}, [])
      else None
  | Waiting, SelectTimer =>
      match g_timer g with
      | Some t =>
          if t <=? now then
            Some ({| g_session := g_session g; g_ctx := g_ctx g;
                     g_pc := Pinging; g_timer := None;
                     g_log := record (Probe (Session_s (g_session g)))
                                now done g |}, [])
          else None
      | None => None
      end
  | Pinging, PingReturn answer =>
      match Session_Ping (fun _ => answer) (g_session g) (g_ctx g) with
      | None =>
          Some ({| g_session := g_session g; g_ctx := g_ctx g;
                   g_pc := Waiting; g_timer := Some (now + pingInterval);
                   g_log := g_log g |}, [])
      | Some _ =>
          (* a := 0; a < reconnectAttempts && err != nil *)
          Some ({| g_session := g_session g; g_ctx := g_ctx g;
                   g_pc := Reconnecting 0; g_timer := g_timer g;
                   g_log := record Factory now done g |}, [])
      end
  | Reconnecting a, ConnectReturn created =>
      match Session_Connect (fun _ => created) (g_ctx g) (g_session g) with
      | (s, started, None) =>
          Some ({| g_session := s; g_ctx := g_ctx g; g_pc := Waiting;
                   g_timer := Some (now + pingInterval);
                   g_log := g_log g |}, started)
      | (s, started, Some _) =>
          if (S a <? reconnectAttempts)%nat then
            Some ({| g_session := s; g_ctx := g_ctx g;
                     g_pc := Reconnecting (S a); g_timer := g_timer g;
                     g_log := record Factory now done g |}, started)
          else
            Some ({| g_session := s; g_ctx := g_ctx g; g_pc := Returned;
                     g_timer := None; g_log := g_log g |}, started)
      end
  | _, _ => None
  end.

(** ** The goroutines of a process *)

Record World := {
  w_now : Z;                      (* the clock *)
  w_done : bool;                  (* the governing context is cancelled *)
  w_goroutines : list Goroutine;
}.

Inductive Event :=
| Cancel                      (* the caller cancels the governing context *)
| Advance (d : time.Duration) (* time passes *)
| Run (i : nat) (st : Step).  (* goroutine [i] takes a step *)

Definition World_step (w : World) (e : Event) : option World :=
  match e with
  | Cancel =>
      Some {| w_now := w_now w; w_done := true;
              w_goroutines := w_goroutines w |}
  | Advance d =>
      if 0 <=? d then
        Some {| w_now := w_now w + d; w_done := w_done w;
                w_goroutines := w_goroutines w |}
      else None
  | Run i st =>
      match w_goroutines w !! i with
      | None => None
      | Some g =>
          match HandleConnect_step (w_now w) (w_done w) g st with
          | None => None
          | Some (g', started) =>
              Some {| w_now := w_now w; w_done := w_done w;
                      w_goroutines := <[i := g']> (w_goroutines w) ++ started |}
          end
      end
  end.

Fixpoint World_run (w : World) (es : list Event) : option World :=
  match es with
  | [] => Some w
  | e :: rest =>
      match World_step w e with
      | None => None
      | Some w' => World_run w' rest
      end
  end.

(** The world right after a successful [Connect] at time [now]. *)
Definition World_of (now : Z) (started : Goroutine) : World :=
  {| w_now := now; w_done := false; w_goroutines := [started] |}.

(** ** Vocabulary of the properties *)

(** An option (of either kind) that always leaves field [get] at [v], and one
    that never changes it. *)
Definition sets {S A} (get : S -> A) (o : S -> S) (v : A) : Prop :=
  forall c, get (o c) = v.
Definition keeps {S A} (get : S -> A) (o : S -> S) : Prop :=
  forall c, get (o c) = get c.

(** The resolved options of a call: [QueryOptions(optionFunc).apply(&opt)]. *)
Definition resolve (optionFunc : list QueryOptionFunc) : QueryOption :=
  QueryOptions_apply optionFunc QueryOption_zero.

(** The builder calls section 4.2 of the specification asks for, in its
    order: strict binding, idempotency, consistency, retry policy, each only
    when set. *)
Definition calls_in_order (qo : QueryOption) : list gocqlx.Call :=
  match strict qo with Some true => [gocqlx.CallStrict] | _ => [] end ++
  match idenpoten qo with Some i => [gocqlx.CallIdempotent i] | None => [] end ++
  match con qo with Some c => [gocqlx.CallConsistency c] | None => [] end ++
  match rp qo with Some r => [gocqlx.CallRetryPolicy r] | None => [] end.

(** Two resolved options that differ at most in the bound values. *)
Definition same_but_value (a b : QueryOption) : Prop :=
  strict a = strict b /\ idenpoten a = idenpoten b /\ con a = con b /\
  rp a = rp b /\ names a = names b.

(** The times of the probes in a log, newest first. *)
Fixpoint probe_times (log : list Invocation) : list Z :=
  match log with
  | [] => []
  | i :: rest =>
      match inv_kind i with
      | Probe _ => inv_at i :: probe_times rest
      | Factory => probe_times rest
      end
  end.

(** The number of factory calls in a log. *)
Fixpoint factory_calls (log : list Invocation) : nat :=
  match log with
  | [] => 0%nat
  | i :: rest =>
      match inv_kind i with
      | Probe _ => factory_calls rest
      | Factory => S (factory_calls rest)
      end
  end.

(** The calls of a log made when the governing context was cancelled. *)
Definition calls_after_cancel (log : list Invocation) : list Invocation :=
  List.filter inv_ctx_done log.

(** Times given newest first, each at least [pingInterval] after every
    earlier one. *)
Fixpoint spaced (times : list Z) : Prop :=
  match times with
  | [] => True
  | t :: earlier =>
      Forall (fun t' => t' + pingInterval <= t) earlier /\ spaced earlier
  end.

(** A world whose goroutines have all just been started by [Connect]. *)
Definition fresh (w : World) : Prop :=
  Forall (fun g => g_pc g = Spawned /\ g_log g = []) (w_goroutines w).

(** The steps goroutine [i] takes in a list of events. *)
Fixpoint steps_of (i : nat) (es : list Event) : list Step :=
  match es with
  | [] => []
  | Run j st :: rest =>
      if Nat.eqb j i then st :: steps_of i rest else steps_of i rest
  | _ :: rest => steps_of i rest
  end.

(** What holds of every goroutine at time [now]. *)
Definition Goroutine_ok (now : Z) (g : Goroutine) : Prop :=
  Forall (fun t => t <= now) (probe_times (g_log g)) /\
  spaced (probe_times (g_log g)) /\
  match g_pc g with
  | Spawned => g_log g = []
  | Waiting =>
      exists t, g_timer g = Some t /\
        Forall (fun t' => t' + pingInterval <= t) (probe_times (g_log g)) /\
        (probe_times (g_log g) = [] -> t <= now)
  | Pinging => probe_times (g_log g) <> []
  | Reconnecting a =>
      (a < reconnectAttempts)%nat /\ probe_times (g_log g) <> []
  | Returned => True
  end.

Definition World_ok (w : World) : Prop :=
  Forall (Goroutine_ok (w_now w)) (w_goroutines w).

(** The reading of the specification under which cancelling the governing
    context ends all calls: in every run, every goroutine made each of its
    prober and factory calls while the context was not cancelled. *)
Definition cancel_ends_all_calls : Prop :=
  forall (w w' : World) (es : list Event) (i : nat) (g : Goroutine),
    fresh w -> World_run w es = Some w' -> w_goroutines w' !! i = Some g ->
    calls_after_cancel (g_log g) = [].

(** Closed runs are settled by evaluation. *)
Ltac evaluate := vm_compute; reflexivity.

(** ** Scenarios *)

Definition unreachable : gocqlx.Answer :=
  {| gocqlx.answer_err := Some "gocql: no hosts available in the pool";
     gocqlx.answer_string := "" |}.

Definition first_session : Session :=
  {| Session_options := []; Session_s := 1%nat |}.

(** A session created at time 0 whose first probe fails; the context is
    cancelled while the first reconnection attempt is under way, and the
    factory keeps failing. *)
Definition cancelled_in_recovery : list Event :=
  [Run 0 Start; Run 0 SelectTimer; Run 0 (PingReturn unreachable); Cancel] ++
  repeat (Run 0 (ConnectReturn (inr "gocql: unable to create session")))
         reconnectAttempts.

(** A world at time 0 whose only goroutine has just called [Ping]. *)
Definition probing : World :=
  {| w_now := 0; w_done := false;
     w_goroutines :=
       [ {| g_session := first_session; g_ctx := 0%nat; g_pc := Pinging;
            g_timer := None;
            g_log := [ {| inv_kind := Probe 1%nat; inv_at := 0;
                          inv_ctx_done := false |} ] |} ] |}.

(** The probe fails, and so does each of the ten reconnection attempts. *)
Definition ten_failures : list Event :=
  Run 0 (PingReturn unreachable) :: Advance time.Millisecond ::
  repeat (Run 0 (ConnectReturn (inr "gocql: unable to create session")))
         reconnectAttempts.

(** ** Vocabulary of the further properties *)


(** The query overrides the package exports. *)
Definition exported (o : QueryOptionFunc) : Prop :=
  o = Strict \/ (exists i, o = Idenpotent i) \/
  (exists c, o = Consistency c) \/ (exists r, o = RetryPolicy r) \/
  (exists v, o = Bind v) \/ (exists ns, o = Names ns).

(** The place of a builder call in the order of [QueryOption.apply]. *)
Definition Call_rank (c : gocqlx.Call) : nat :=
  match c with
  | gocqlx.CallStrict => 0
  | gocqlx.CallIdempotent _ => 1
  | gocqlx.CallConsistency _ => 2
  | gocqlx.CallRetryPolicy _ => 3
  end.


(** The kinds of the calls of a log, newest first. *)
Definition kinds (log : list Invocation) : list Kind := map inv_kind log.

(** A step that is not the return of a successful reconnection attempt. *)
Definition no_new_session (st : Step) : Prop :=
  match st with
  | ConnectReturn (inl _) => False
  | _ => True
  end.

(** How the calls of a goroutine add up, and where its timer stands. *)
Definition Goroutine_accounting (now : Z) (g : Goroutine) : Prop :=
  let p := length (probe_times (g_log g)) in
  let f := factory_calls (g_log g) in
  match g_pc g with
  | Spawned => g_log g = []
  | Waiting =>
      (exists t, g_timer g = Some t /\ t <= now + pingInterval) /\
      (f <= reconnectAttempts * p)%nat
  | Pinging =>
      g_timer g = None /\ (1 <= p)%nat /\
      (f <= reconnectAttempts * (p - 1))%nat
  | Reconnecting a =>
      g_timer g = None /\ (1 <= p)%nat /\ (a < reconnectAttempts)%nat /\
      (f <= reconnectAttempts * (p - 1) + a + 1)%nat
  | Returned => g_timer g = None /\ (f <= reconnectAttempts * p)%nat
  end.

(** What holds of a goroutine as long as the context is not cancelled: the
    attempts of the recovery under way are the newest calls of the log, and
    a goroutine that has returned made [reconnectAttempts] factory calls
    last. *)
Definition Goroutine_uncancelled (g : Goroutine) : Prop :=
  match g_pc g with
  | Reconnecting a =>
      (a < reconnectAttempts)%nat /\
      take (S a) (kinds (g_log g)) = repeat Factory (S a)
  | Returned =>
      take reconnectAttempts (kinds (g_log g)) =
      repeat Factory reconnectAttempts
  | _ => True
  end.

(** A request that runs [query], with context [ctx] and names [ns], on the
    handle of session [s]. *)
Definition runs_on (r : gocqlx.Request) (s : Session) (ctx : Context)
    (query : string) (ns : list string) : Prop :=
  gocqlx.q_session (gocqlx.query_of r) = Unwrap s /\
  gocqlx.q_ctx (gocqlx.query_of r) = ctx /\
  gocqlx.q_stmt (gocqlx.query_of r) = query /\
  gocqlx.q_names (gocqlx.query_of r) = ns.

(** ** What the driver does with the requests of this package *)

(** gocqlx v3.0.0 (go.mod), [Iterx.Select]: the destination has to be a
    pointer to a slice; with any other destination the call returns an
    error, "expected slice but got string" for a [*string]. *)
Definition Select_takes (dest : gocqlx.Dest) : bool :=
  match dest with
  | gocqlx.PtrSlice _ => true
  | _ => false
  end.

Definition obeys_gocqlx (driver : gocqlx.Request -> gocqlx.Answer) : Prop :=
  forall q dest,
    Select_takes dest = false ->
    exists err, gocqlx.answer_err (driver (gocqlx.Select q dest)) = Some err.

(** gocql v1.6.0 (go.mod), [NewSession]: a configuration without hosts is
    refused with the error "no hosts provided". *)
Definition obeys_gocql
    (CreateSession : gocql.ClusterConfig -> gocqlx.Session + string) : Prop :=
  forall c, gocql.Hosts c = [] -> exists err, CreateSession c = inr err.

(** A step of the loop as the driver lets it happen: what [Ping] returns
    comes from a driver that obeys gocqlx, asked what [Ping] asks; what
    [Session.Connect] returns comes from a driver that obeys gocql, given
    the configuration [Session.Connect] builds. *)
Definition driver_step (st : Step) : Prop :=
  match st with
  | PingReturn answer =>
      exists driver s ctx,
        obeys_gocqlx driver /\
        answer = driver (Session_Select s ctx pingQuery gocqlx.PtrString [])
  | ConnectReturn created =>
      exists CreateSession,
        obeys_gocql CreateSession /\
        created = CreateSession (Connect_cluster [])
  | _ => True
  end.

Definition driver_event (e : Event) : Prop :=
  match e with
  | Run _ st => driver_step st
  | _ => True
  end.

(** A database that is up and answers every query; the driver in front of
    it obeys gocqlx. [Get] into a string yields the uuid asked for. *)
Definition healthy_database (r : gocqlx.Request) : gocqlx.Answer :=
  match r with
  | gocqlx.Select _ (gocqlx.PtrSlice _) =>
      {| gocqlx.answer_err := None; gocqlx.answer_string := "" |}
  | gocqlx.Select _ gocqlx.PtrString =>
      {| gocqlx.answer_err := Some "expected slice but got string";
         gocqlx.answer_string := "" |}
  | gocqlx.Select _ (gocqlx.PtrStruct _) =>
      {| gocqlx.answer_err := Some "expected slice but got struct";
         gocqlx.answer_string := "" |}
  | gocqlx.Get _ gocqlx.PtrString =>
      {| gocqlx.answer_err := None;
         gocqlx.answer_string := "f81d4fae-7dec-11d0-a765-00a0c91e6bf6" |}
  | _ => {| gocqlx.answer_err := None; gocqlx.answer_string := "" |}
  end.





(** What [Ping] gets from the driver in front of a healthy database. *)
Definition refused : gocqlx.Answer :=
  healthy_database
    (Session_Select first_session 0%nat pingQuery gocqlx.PtrString []).

(** The life of a session in front of a healthy database: the first probe
    is refused, and so is each of the ten reconnection attempts. *)
Definition first_probe_then_ten_refusals : list Event :=
  [Run 0 Start; Run 0 SelectTimer; Run 0 (PingReturn refused)] ++
  repeat (Run 0 (ConnectReturn (inr "no hosts provided"))) reconnectAttempts.

(** The same life, with the context cancelled while the goroutine is in
    its first select. *)
Definition cancelled_at_first_wait : list Event :=
  [Run 0 Start; Cancel; Run 0 SelectTimer; Run 0 (PingReturn refused)] ++
  repeat (Run 0 (ConnectReturn (inr "no hosts provided"))) reconnectAttempts.

(** A cluster that is up: the driver obeys gocql and opens driver session 1
    whenever it is given hosts. *)
Definition cluster_up (c : gocql.ClusterConfig) : gocqlx.Session + string :=
  match gocql.Hosts c with
  | [] => inr "no hosts provided"
  | _ :: _ => inl 1%nat
  end.

(** ** Cluster options *)

Lemma Options_apply_app (a b : Options) (c : gocql.ClusterConfig) :
  Options_apply (a ++ b) c = Options_apply b (Options_apply a c).
Proof.
  revert c. induction a as [|o a IH]; intros c; simpl; [reflexivity|].
  apply IH.
Qed.

Lemma Options_apply_keeps {A} (get : gocql.ClusterConfig -> A) (l : Options) :
  Forall (keeps get) l -> forall c, get (Options_apply l c) = get c.
Proof.
  induction 1 as [|o l Ho _ IH]; intros c; simpl; [reflexivity|].
  rewrite IH. apply Ho.
Qed.

Lemma Connect_cluster_unfold (options : list Option) :
  Connect_cluster options =
  gocql.set_ProtoVersion 3
    (gocql.set_CQLVersion "3.11"
       (Options_apply options (Options_apply defaultOption gocql.NewCluster))).
Proof.
  unfold Connect_cluster, Options_add. rewrite Options_apply_app. reflexivity.
Qed.

(** C6. [Connect] applies the baseline options first and then the caller's
    overrides in the order given. Hence, whatever the field, the value an
    override writes is the one the configuration holds after line 83,
    whatever the baseline and the earlier overrides wrote, as long as no
    later override writes the field again; and it is the one handed to the
    driver, for every field the version pins of lines 84-85 leave alone. *)
Theorem Connect_later_override_wins {A} (get : gocql.ClusterConfig -> A)
    (pre post : list Option) (o : Option) (v : A) :
  sets get o v ->
  Forall (keeps get) post ->
  Connect_cluster (pre ++ o :: post) =
    gocql.set_ProtoVersion 3
      (gocql.set_CQLVersion "3.11"
         (Options_apply post
            (o (Options_apply pre
                  (Options_apply defaultOption gocql.NewCluster))))) /\
  get (Options_apply (Options_add defaultOption (pre ++ o :: post))
         gocql.NewCluster) = v /\
  (keeps get (gocql.set_CQLVersion "3.11") ->
   keeps get (gocql.set_ProtoVersion 3) ->
   get (Connect_cluster (pre ++ o :: post)) = v).
Proof.
  intros Ho Hpost.
  assert (E : get (Options_apply (Options_add defaultOption (pre ++ o :: post))
                     gocql.NewCluster) = v).
  { unfold Options_add. rewrite !Options_apply_app. simpl.
    rewrite (Options_apply_keeps get post Hpost). apply Ho. }
  split; [|split; [exact E|]].
  - rewrite Connect_cluster_unfold, Options_apply_app. reflexivity.
  - intros Hcql Hproto. unfold Connect_cluster.
    rewrite Hproto, Hcql. exact E.
Qed.

Lemma Connect_later_override_wins_witness :
  sets gocql.Timeout (WithTimeout (5 * time.Second)) (5 * time.Second) /\
  Forall (keeps gocql.Timeout) [WithHosts ["10.0.0.1"]] /\
  keeps gocql.Timeout (gocql.set_CQLVersion "3.11") /\
  keeps gocql.Timeout (gocql.set_ProtoVersion 3) /\
  gocql.Timeout
    (Connect_cluster
       ([WithTimeout time.Second; WithKeyspace "ks"] ++
        WithTimeout (5 * time.Second) :: [WithHosts ["10.0.0.1"]]))
  = 5 * time.Second.
Proof.
  assert (H1 : keeps gocql.Timeout (gocql.set_CQLVersion "3.11"))
    by (intros c; reflexivity).
  assert (H2 : keeps gocql.Timeout (gocql.set_ProtoVersion 3))
    by (intros c; reflexivity).
  assert (H3 : sets gocql.Timeout (WithTimeout (5 * time.Second))
                 (5 * time.Second)) by (intros c; reflexivity).
  assert (H4 : Forall (keeps gocql.Timeout) [WithHosts ["10.0.0.1"]])
    by (constructor; [intros c; reflexivity | constructor]).
  split; [exact H3|]. split; [exact H4|]. split; [exact H1|].
  split; [exact H2|].
  exact (proj2 (proj2 (Connect_later_override_wins gocql.Timeout
                  [WithTimeout time.Second; WithKeyspace "ks"]
                  [WithHosts ["10.0.0.1"]]
                  (WithTimeout (5 * time.Second)) (5 * time.Second)
                  H3 H4)) H1 H2).
Defined.

(** C2. The configuration a session was created from is not kept, and a
    reconnection does not use it: [Connect] leaves [options] nil, and
    [Session.Connect] asks the driver for a session with the configuration
    of an override-free [Connect], whatever the original overrides were.
    A host list given at creation is gone from it. *)
Theorem Session_Connect_drops_overrides
    (CreateSession : gocql.ClusterConfig -> gocqlx.Session + string)
    (ctx : Context) (options : list Option) (s : Session) (g : Goroutine) :
  Connect CreateSession ctx options = inl (s, g) ->
  Session_options s = [] /\
  Session_Connect CreateSession ctx s =
    match CreateSession (Connect_cluster []) with
    | inr err => (s, [], Some (DriverError err))
    | inl sess =>
        let ss := {| Session_options := []; Session_s := sess |} in
        ({| Session_options := []; Session_s := sess |},
         [go_HandleConnect ss ctx], None)
    end /\
  gocql.Hosts (Connect_cluster (options ++ [WithHosts ["10.0.0.1"]]))
    = ["10.0.0.1"] /\
  gocql.Hosts (Connect_cluster []) = [].
Proof.
  unfold Connect. intros H.
  destruct (CreateSession (Connect_cluster options)) as [sess|err] eqn:E;
    [|discriminate].
  injection H as <- <-.
  split; [reflexivity|]. split.
  - unfold Session_Connect, Connect.
    destruct (CreateSession (Connect_cluster [])); reflexivity.
  - split; [|reflexivity].
    rewrite Connect_cluster_unfold, Options_apply_app. reflexivity.
Qed.

Lemma Session_Connect_drops_overrides_witness :
  Connect cluster_up 0%nat [WithHosts ["10.0.0.1"]]
    = inl (first_session, go_HandleConnect first_session 0%nat) /\
  Session_Connect cluster_up 0%nat first_session
    = (first_session, [], Some (DriverError "no hosts provided")).
Proof.
  split; [reflexivity|].
  exact (proj1 (proj2
    (Session_Connect_drops_overrides cluster_up 0%nat
       [WithHosts ["10.0.0.1"]] _ _ eq_refl))).
Defined.

(** ** Query options *)

Lemma QueryOptions_apply_app (a b : QueryOptions) (qo : QueryOption) :
  QueryOptions_apply (a ++ b) qo = QueryOptions_apply b (QueryOptions_apply a qo).
Proof.
  revert qo. induction a as [|o a IH]; intros qo; simpl; [reflexivity|].
  apply IH.
Qed.

Lemma QueryOptions_apply_keeps {A} (get : QueryOption -> A) (l : QueryOptions) :
  Forall (keeps get) l -> forall qo, get (QueryOptions_apply l qo) = get qo.
Proof.
  induction 1 as [|o l Ho _ IH]; intros qo; simpl; [reflexivity|].
  rewrite IH. apply Ho.
Qed.

(** Last write wins, for any field and any list of overrides. *)
Lemma resolve_last_wins {A} (get : QueryOption -> A)
    (pre post : list QueryOptionFunc) (o : QueryOptionFunc) (v : A) :
  sets get o v -> Forall (keeps get) post ->
  get (resolve (pre ++ o :: post)) = v.
Proof.
  intros Ho Hpost. unfold resolve.
  rewrite QueryOptions_apply_app. simpl.
  rewrite (QueryOptions_apply_keeps get post Hpost). apply Ho.
Qed.

Lemma QueryOption_apply_calls (qo : QueryOption) (q : gocqlx.Queryx) :
  gocqlx.q_calls (QueryOption_apply qo q) =
  gocqlx.q_calls q ++ calls_in_order qo.
Proof.
  unfold QueryOption_apply, calls_in_order.
  destruct (strict qo) as [[|]|], (idenpoten qo), (con qo), (rp qo);
    simpl; rewrite <- ?app_assoc; simpl; rewrite ?app_nil_r; reflexivity.
Qed.

Lemma QueryOption_apply_same_but_value (a b : QueryOption)
    (q : gocqlx.Queryx) :
  same_but_value a b -> QueryOption_apply a q = QueryOption_apply b q.
Proof.
  intros (Hs & Hi & Hc & Hr & _). unfold QueryOption_apply.
  rewrite Hs, Hi, Hc, Hr. reflexivity.
Qed.

Lemma resolve_snoc (opts : list QueryOptionFunc) (o : QueryOptionFunc) :
  resolve (opts ++ [o]) = o (resolve opts).
Proof. unfold resolve. rewrite QueryOptions_apply_app. reflexivity. Qed.

(** C7. Resolving [Idenpotent(true), Consistency(X), Idenpotent(false)]
    gives idempotency false and consistency [X]; with any two flags in
    place of true and false, the second one is the one resolved. *)
Theorem resolve_idempotent_consistency_idempotent (X : gocql.Consistency) :
  idenpoten (resolve [Idenpotent true; Consistency X; Idenpotent false])
    = Some false /\
  con (resolve [Idenpotent true; Consistency X; Idenpotent false]) = Some X /\
  forall first second : bool,
    idenpoten (resolve [Idenpotent first; Consistency X; Idenpotent second])
      = Some second /\
    con (resolve [Idenpotent first; Consistency X; Idenpotent second])
      = Some X.
Proof. repeat split. Qed.

(** C1. [Get] and [Iter] make the builder calls of the resolved options on
    the query they run, in the order strict, idempotent, consistency, retry
    policy and each only when set; [Select] resolves the options and then
    runs the query without making any of these calls. *)
Theorem Select_applies_no_query_option (s : Session) (ctx : Context)
    (query : string) (dest : gocqlx.Dest) (optionFunc : list QueryOptionFunc) :
  gocqlx.q_calls (gocqlx.query_of (Session_Get s ctx query dest optionFunc))
    = calls_in_order (resolve optionFunc) /\
  gocqlx.q_calls (gocqlx.query_of (Session_Iter s ctx query optionFunc))
    = calls_in_order (resolve optionFunc) /\
  gocqlx.q_calls (gocqlx.query_of (Session_Select s ctx query dest optionFunc))
    = [] /\
  gocqlx.q_calls
    (gocqlx.query_of (Session_Select s ctx query dest [Idenpotent true]))
    <> calls_in_order (resolve [Idenpotent true]).
Proof.
  unfold Session_Get, Session_Iter, Session_Select. simpl.
  rewrite !QueryOption_apply_calls. simpl.
  repeat split; discriminate.
Qed.

(** C3. The values given to [Bind] end up in the resolved options and
    nowhere else: overrides whose resolved options differ only in the bound
    values make [Get], [Select] and [Iter] run the very same query, adding a
    [Bind] changes nothing, whereas the list given to [Names] is the one the
    query is created with. *)
Theorem Bind_values_never_reach_the_query (s : Session) (ctx : Context)
    (query : string) (dest : gocqlx.Dest)
    (opts opts' : list QueryOptionFunc) (v : list any) (ns : list string) :
  same_but_value (resolve opts) (resolve opts') ->
  value (resolve (opts ++ [Bind v])) = v /\
  (Session_Get s ctx query dest opts = Session_Get s ctx query dest opts' /\
   Session_Select s ctx query dest opts
     = Session_Select s ctx query dest opts' /\
   Session_Iter s ctx query opts = Session_Iter s ctx query opts') /\
  (Session_Get s ctx query dest (opts ++ [Bind v])
     = Session_Get s ctx query dest opts /\
   Session_Select s ctx query dest (opts ++ [Bind v])
     = Session_Select s ctx query dest opts /\
   Session_Iter s ctx query (opts ++ [Bind v])
     = Session_Iter s ctx query opts) /\
  (gocqlx.q_names
     (gocqlx.query_of (Session_Get s ctx query dest (opts ++ [Names ns])))
     = ns /\
   gocqlx.q_names
     (gocqlx.query_of (Session_Select s ctx query dest (opts ++ [Names ns])))
     = ns /\
   gocqlx.q_names
     (gocqlx.query_of (Session_Iter s ctx query (opts ++ [Names ns])))
     = ns).
Proof.
  intros Hsame.
  assert (Hbind : same_but_value (resolve (opts ++ [Bind v])) (resolve opts)).
  { rewrite resolve_snoc. repeat split. }
  assert (Hnames : forall a b, same_but_value a b -> names a = names b).
  { intros a b (_ & _ & _ & _ & Hn). exact Hn. }
  split; [rewrite resolve_snoc; reflexivity|].
  unfold Session_Get, Session_Select, Session_Iter.
  fold (resolve opts) (resolve opts') (resolve (opts ++ [Bind v]))
       (resolve (opts ++ [Names ns])).
  split; [|split].
  - rewrite (Hnames _ _ Hsame).
    rewrite (QueryOption_apply_same_but_value _ _ _ Hsame). repeat split.
  - rewrite (Hnames _ _ Hbind).
    rewrite (QueryOption_apply_same_but_value _ _ _ Hbind). repeat split.
  - rewrite resolve_snoc.
    unfold QueryOption_apply. simpl.
    destruct (strict (resolve opts)) as [[|]|], (idenpoten (resolve opts)),
      (con (resolve opts)), (rp (resolve opts)); repeat split.
Qed.

Lemma Bind_values_never_reach_the_query_witness :
  same_but_value (resolve [Bind [AnyInt 1]; Strict])
                 (resolve [Strict; Bind [AnyString "x"]]) /\
  Session_Get {| Session_options := []; Session_s := 1%nat |} 0%nat
    "SELECT a FROM t WHERE k = ?" (gocqlx.PtrStruct "Row")
    [Bind [AnyInt 1]; Strict]
  = Session_Get {| Session_options := []; Session_s := 1%nat |} 0%nat
    "SELECT a FROM t WHERE k = ?" (gocqlx.PtrStruct "Row")
    [Strict; Bind [AnyString "x"]].
Proof.
  assert (H : same_but_value (resolve [Bind [AnyInt 1]; Strict])
                (resolve [Strict; Bind [AnyString "x"]]))
    by (repeat split).
  split; [exact H|].
  exact (proj1 (proj1 (proj2
    (Bind_values_never_reach_the_query
       {| Session_options := []; Session_s := 1%nat |} 0%nat
       "SELECT a FROM t WHERE k = ?" (gocqlx.PtrStruct "Row")
       [Bind [AnyInt 1]; Strict] [Strict; Bind [AnyString "x"]] [] [] H)))).
Defined.


(** ** The liveness probe *)

Lemma healthy_database_obeys_gocqlx : obeys_gocqlx healthy_database.
Proof.
  intros q [|t|t]; simpl; intros H; try discriminate; eexists; reflexivity.
Qed.

(** C9. [Ping] hands a pointer to a string to [Select], and gocqlx refuses
    to scan into anything but a slice: with a driver that obeys gocqlx,
    [Ping] returns a driver error whatever the database answers, never nil
    and never the error of [errors.New("empty uuid from db")]. In front of
    a healthy database, where [Get] into the same string yields the uuid
    without error, [Ping] returns "expected slice but got string". *)
Theorem Ping_fails_whatever_the_database_answers
    (driver : gocqlx.Request -> gocqlx.Answer) (s : Session) (ctx : Context) :
  obeys_gocqlx driver ->
  (exists err, Session_Ping driver s ctx = Some (DriverError err)) /\
  Session_Ping driver s ctx <> None /\
  Session_Ping driver s ctx <> Some (errors_New "empty uuid from db") /\
  Session_Ping healthy_database s ctx
    = Some (DriverError "expected slice but got string") /\
  gocqlx.answer_err
    (healthy_database (Session_Get s ctx pingQuery gocqlx.PtrString []))
    = None /\
  gocqlx.answer_string
    (healthy_database (Session_Get s ctx pingQuery gocqlx.PtrString []))
    <> "".
Proof.
  intros Hdriver.
  assert (E : exists err, Session_Ping driver s ctx = Some (DriverError err)).
  { unfold Session_Ping, Session_Select. simpl.
    destruct (Hdriver (gocqlx.ContextQuery (Session_s s) ctx pingQuery [])
                gocqlx.PtrString eq_refl) as [err ->].
    exists err. reflexivity. }
  split; [exact E|]. destruct E as [err ->].
  repeat split; discriminate.
Qed.

Lemma Ping_fails_whatever_the_database_answers_witness :
  obeys_gocqlx healthy_database /\
  Session_Ping healthy_database first_session 0%nat <> None.
Proof.
  split; [exact healthy_database_obeys_gocqlx|].
  exact (proj1 (proj2 (Ping_fails_whatever_the_database_answers
                         healthy_database first_session 0%nat
                         healthy_database_obeys_gocqlx))).
Defined.

(** ** The reconnection loop: what every run preserves *)

Lemma Forall_le_mono (l : list Z) (a b : Z) :
  a <= b -> Forall (fun t => t <= a) l -> Forall (fun t => t <= b) l.
Proof. intros Hab H. eapply Forall_impl; [exact H|]. simpl. lia. Qed.

Lemma Goroutine_ok_mono (now now' : Z) (g : Goroutine) :
  now <= now' -> Goroutine_ok now g -> Goroutine_ok now' g.
Proof.
  intros Hle (Hpast & Hsp & Hpc). split; [|split]; [|exact Hsp|].
  - eapply Forall_le_mono; eassumption.
  - destruct (g_pc g); try exact Hpc.
    destruct Hpc as (t & Ht & Hall & Hfirst).
    exists t. split; [exact Ht|]. split; [exact Hall|].
    intros Hnone. specialize (Hfirst Hnone). lia.
Qed.

Lemma go_HandleConnect_ok (now : Z) (s : Session) (ctx : Context) :
  Goroutine_ok now (go_HandleConnect s ctx).
Proof. repeat split; constructor. Qed.

Lemma Session_Connect_started_ok (now : Z) (created : gocqlx.Session + string)
    (ctx : Context) (s s' : Session) (started : list Goroutine)
    (err : option error) :
  Session_Connect (fun _ => created) ctx s = (s', started, err) ->
  Forall (Goroutine_ok now) started.
Proof.
  unfold Session_Connect, Connect. destruct created; intros [= <- <- <-].
  - constructor; [apply go_HandleConnect_ok | constructor].
  - constructor.
Qed.

Lemma HandleConnect_step_ok (now : Z) (done : bool) (g g' : Goroutine)
    (st : Step) (started : list Goroutine) :
  Goroutine_ok now g ->
  HandleConnect_step now done g st = Some (g', started) ->
  Goroutine_ok now g' /\ Forall (Goroutine_ok now) started.
Proof.
  intros (Hpast & Hsp & Hpc). unfold HandleConnect_step.
  destruct (g_pc g) eqn:Epc, st; try discriminate.
  - (* Start *)
    intros [= <- <-]. split; [|constructor].
    rewrite Hpc. repeat split; simpl; try constructor.
    exists (now + 0). split; [reflexivity|]. split; [constructor|]. lia.
  - (* SelectDone *)
    destruct done; [|discriminate]. intros [= <- <-].
    split; [|constructor]. repeat split; assumption.
  - (* SelectTimer *)
    destruct Hpc as (t & Ht & Hall & _). rewrite Ht.
    destruct (Z.leb_spec t now) as [Hle|]; [|discriminate].
    intros [= <- <-]. split; [|constructor].
    unfold Goroutine_ok, record; simpl. repeat split.
    + constructor; [lia|assumption].
    + eapply Forall_impl; [exact Hall|]. simpl. intros t' Ht'. lia.
    + assumption.
    + discriminate.
  - (* PingReturn *)
    destruct (Session_Ping _ _ _); intros [= <- <-]; (split; [|constructor]).
    + unfold Goroutine_ok, record; simpl. repeat split; try assumption.
      unfold reconnectAttempts. lia.
    + unfold Goroutine_ok; simpl. repeat split; try assumption.
      exists (now + pingInterval). split; [reflexivity|]. split.
      * eapply Forall_impl; [exact Hpast|]. simpl. intros t' Ht'. lia.
      * intros Hnone. contradiction.
  - (* ConnectReturn *)
    destruct Hpc as [Ha Hsome].
    destruct (Session_Connect _ _ _) as [[s started'] err] eqn:Ec.
    pose proof (Session_Connect_started_ok now _ _ _ _ _ _ Ec) as Hst.
    destruct err.
    + destruct (Nat.ltb_spec (S a) reconnectAttempts); intros [= <- <-];
        (split; [|exact Hst]);
        unfold Goroutine_ok, record; simpl; repeat split; assumption.
    + intros [= <- <-]. split; [|exact Hst].
      unfold Goroutine_ok; simpl. repeat split; try assumption.
      exists (now + pingInterval). split; [reflexivity|]. split.
      * eapply Forall_impl; [exact Hpast|]. simpl. intros t' Ht'. lia.
      * intros Hnone. contradiction.
Qed.

Lemma World_step_ok (w w' : World) (e : Event) :
  World_ok w -> World_step w e = Some w' -> World_ok w'.
Proof.
  unfold World_ok. intros Hok. destruct e as [|d|i st]; simpl.
  - intros [= <-]. exact Hok.
  - destruct (Z.leb_spec 0 d) as [Hd|]; [|discriminate]. intros [= <-]. simpl.
    eapply Forall_impl; [exact Hok|]. intros g. apply Goroutine_ok_mono. lia.
  - destruct (w_goroutines w !! i) as [g|] eqn:Ei; [|discriminate].
    destruct (HandleConnect_step _ _ _ _) as [[g' started]|] eqn:Es;
      [|discriminate].
    intros [= <-]. simpl.
    assert (Hg : Goroutine_ok (w_now w) g)
      by (eapply Forall_lookup_1; eassumption).
    destruct (HandleConnect_step_ok _ _ _ _ _ _ Hg Es) as [Hg' Hst].
    apply Forall_app. split; [|exact Hst].
    apply Forall_insert; assumption.
Qed.

Lemma World_run_ok (es : list Event) (w w' : World) :
  World_ok w -> World_run w es = Some w' -> World_ok w'.
Proof.
  revert w. induction es as [|e es IH]; intros w Hok; simpl.
  - intros [= <-]. exact Hok.
  - destruct (World_step w e) as [w1|] eqn:E; [|discriminate].
    apply IH. eapply World_step_ok; eassumption.
Qed.

Lemma fresh_ok (w : World) : fresh w -> World_ok w.
Proof.
  unfold fresh, World_ok. intros H. eapply Forall_impl; [exact H|].
  simpl. intros g [Hpc Hlog].
  unfold Goroutine_ok. rewrite Hpc, Hlog. repeat split; constructor.
Qed.

(** ** The reconnection loop: one goroutine among the others *)

Lemma World_step_other (w w' : World) (e : Event) (i : nat) (g : Goroutine) :
  (forall st, e <> Run i st) ->
  w_goroutines w !! i = Some g ->
  World_step w e = Some w' ->
  w_goroutines w' !! i = Some g.
Proof.
  intros Hne Hi. destruct e as [|d|j st]; simpl.
  - intros [= <-]. exact Hi.
  - destruct (0 <=? d); [|discriminate]. intros [= <-]. exact Hi.
  - destruct (w_goroutines w !! j) as [gj|]; [|discriminate].
    destruct (HandleConnect_step _ _ _ _) as [[g' started]|]; [|discriminate].
    intros [= <-]. simpl.
    assert (j <> i) by (intros ->; exact (Hne st eq_refl)).
    apply lookup_app_l_Some. rewrite list_lookup_insert_ne by assumption.
    exact Hi.
Qed.

Lemma World_step_self (w w' : World) (st : Step) (i : nat) (g : Goroutine) :
  w_goroutines w !! i = Some g ->
  World_step w (Run i st) = Some w' ->
  exists g' started,
    HandleConnect_step (w_now w) (w_done w) g st = Some (g', started) /\
    w_goroutines w' !! i = Some g' /\
    w_goroutines w' = <[i := g']> (w_goroutines w) ++ started.
Proof.
  intros Hi. simpl. rewrite Hi.
  destruct (HandleConnect_step _ _ _ _) as [[g' started]|]; [|discriminate].
  intros [= <-]. simpl. exists g', started. repeat split.
  apply lookup_app_l_Some. apply list_lookup_insert_eq.
  eapply lookup_lt_Some; eassumption.
Qed.

Lemma Returned_is_final (now : Z) (done : bool) (g : Goroutine) (st : Step) :
  g_pc g = Returned -> HandleConnect_step now done g st = None.
Proof. unfold HandleConnect_step. intros ->. destruct st; reflexivity. Qed.

Lemma World_run_Returned (es : list Event) (w w' : World) (i : nat)
    (g : Goroutine) :
  w_goroutines w !! i = Some g -> g_pc g = Returned ->
  World_run w es = Some w' ->
  w_goroutines w' !! i = Some g.
Proof.
  revert w. induction es as [|e es IH]; intros w Hi Hpc; simpl.
  - intros [= <-]. exact Hi.
  - destruct (World_step w e) as [w1|] eqn:E; [|discriminate].
    apply IH; [|exact Hpc].
    destruct e as [| |j st]; try (eapply World_step_other; eauto; discriminate).
    destruct (decide (j = i)) as [->|Hne].
    + simpl in E. rewrite Hi, (Returned_is_final _ _ _ _ Hpc) in E.
      discriminate.
    + eapply World_step_other; eauto. congruence.
Qed.

Lemma steps_of_cons_other (i : nat) (e : Event) (es : list Event) :
  (forall st, e <> Run i st) -> steps_of i (e :: es) = steps_of i es.
Proof.
  intros Hne. destruct e as [| |j st]; simpl; try reflexivity.
  destruct (Nat.eqb_spec j i) as [->|]; [|reflexivity].
  destruct (Hne st eq_refl).
Qed.

Lemma steps_of_cons_self (i : nat) (st : Step) (es : list Event) :
  steps_of i (Run i st :: es) = st :: steps_of i es.
Proof. simpl. rewrite Nat.eqb_refl. reflexivity. Qed.

Lemma Event_self_or_other (i : nat) (e : Event) :
  (exists st, e = Run i st) \/ (forall st, e <> Run i st).
Proof.
  destruct e as [| |j st]; try (right; discriminate).
  destruct (decide (j = i)) as [->|Hne]; [left; eauto|right; congruence].
Qed.

Lemma ConnectReturn_failure (now : Z) (done : bool) (g : Goroutine) (a : nat)
    (err : string) :
  g_pc g = Reconnecting a ->
  HandleConnect_step now done g (ConnectReturn (inr err)) =
  Some (if (S a <? reconnectAttempts)%nat then
          {| g_session := g_session g; g_ctx := g_ctx g;
             g_pc := Reconnecting (S a); g_timer := g_timer g;
             g_log := record Factory now done g |}
        else
          {| g_session := g_session g; g_ctx := g_ctx g; g_pc := Returned;
             g_timer := None; g_log := g_log g |}, []).
Proof.
  unfold HandleConnect_step. intros ->. simpl.
  destruct (S a <? reconnectAttempts)%nat; reflexivity.
Qed.

(** A recovery in which every remaining attempt fails. *)
Lemma recovery_exhausted (es : list Event) :
  forall (w w' : World) (i : nat) (g : Goroutine) (a : nat)
         (errs : list string),
    w_goroutines w !! i = Some g ->
    g_pc g = Reconnecting a ->
    (a < reconnectAttempts)%nat ->
    (a + length errs = reconnectAttempts)%nat ->
    steps_of i es = map (fun e => ConnectReturn (inr e)) errs ->
    World_run w es = Some w' ->
    exists g',
      w_goroutines w' !! i = Some g' /\ g_pc g' = Returned /\
      g_session g' = g_session g /\
      S (factory_calls (g_log g')) =
        (factory_calls (g_log g) + length errs)%nat /\
      probe_times (g_log g') = probe_times (g_log g).
Proof.
  induction es as [|e es IH]; intros w w' i g a errs Hi Hpc Ha Hlen Hsteps.
  - destruct errs; [simpl in Hlen; lia | discriminate].
  - simpl. destruct (World_step w e) as [w1|] eqn:E; [|discriminate].
    intros Hrun.
    destruct (Event_self_or_other i e) as [[st ->]|Hne].
    + rewrite steps_of_cons_self in Hsteps.
      destruct errs as [|err errs]; [discriminate|].
      simpl in Hsteps. injection Hsteps as -> Hsteps. simpl in Hlen.
      destruct (World_step_self _ _ _ _ _ Hi E) as (g1 & started & Hs & Hi1 & _).
      rewrite (ConnectReturn_failure _ _ _ _ _ Hpc) in Hs.
      destruct (Nat.ltb_spec (S a) reconnectAttempts) as [Hlt|Hge];
        injection Hs as <- <-.
      * destruct (IH w1 w' i _ (S a) errs Hi1 eq_refl Hlt ltac:(lia) Hsteps Hrun)
          as (g' & Hg' & Hpc' & Hsess & Hfac & Hpr).
        exists g'. simpl in Hsess, Hfac, Hpr.
        split; [exact Hg'|]. split; [exact Hpc'|]. split; [exact Hsess|].
        split; [simpl; lia|exact Hpr].
      * assert (errs = []) as ->
          by (destruct errs; [reflexivity|simpl in Hlen; lia]).
        eexists. split; [|split; [|split; [|split]]].
        -- eapply World_run_Returned; [exact Hi1|reflexivity|exact Hrun].
        -- reflexivity.
        -- reflexivity.
        -- simpl. lia.
        -- reflexivity.
    + rewrite steps_of_cons_other in Hsteps by assumption.
      apply (IH w1 w' i g a errs); try assumption.
      eapply World_step_other; eassumption.
Qed.

(** C5. A goroutine whose probe fails and whose ten reconnection attempts
    all fail, however its steps are interleaved with the rest of the world,
    has returned: it has made exactly [reconnectAttempts] factory calls and
    no further probe, its session still holds the handle it held, no step
    of the loop is possible any more, and nothing that happens afterwards
    changes the goroutine, its session or its log. *)
Theorem HandleConnect_gives_up_after_ten_failures
    (es : list Event) (w w' : World) (i : nat) (g : Goroutine)
    (answer : gocqlx.Answer) (errs : list string) :
  w_goroutines w !! i = Some g ->
  g_pc g = Pinging ->
  Session_Ping (fun _ => answer) (g_session g) (g_ctx g) <> None ->
  length errs = reconnectAttempts ->
  steps_of i es =
    PingReturn answer :: map (fun e => ConnectReturn (inr e)) errs ->
  World_run w es = Some w' ->
  exists g',
    w_goroutines w' !! i = Some g' /\
    g_pc g' = Returned /\
    g_session g' = g_session g /\
    factory_calls (g_log g') =
      (factory_calls (g_log g) + reconnectAttempts)%nat /\
    probe_times (g_log g') = probe_times (g_log g) /\
    (forall now done st, HandleConnect_step now done g' st = None) /\
    (forall es' w'', World_run w' es' = Some w'' ->
                     w_goroutines w'' !! i = Some g').
Proof.
  revert w. induction es as [|e es IH]; intros w Hi Hpc Hfail Hlen Hsteps.
  - discriminate.
  - simpl. destruct (World_step w e) as [w1|] eqn:E; [|discriminate].
    intros Hrun.
    destruct (Event_self_or_other i e) as [[st ->]|Hne].
    + rewrite steps_of_cons_self in Hsteps. injection Hsteps as -> Hsteps.
      destruct (World_step_self _ _ _ _ _ Hi E) as (g1 & started & Hs & Hi1 & _).
      unfold HandleConnect_step in Hs. rewrite Hpc in Hs.
      destruct (Session_Ping _ _ _) eqn:Ep; [|contradiction].
      injection Hs as <- <-.
      destruct (recovery_exhausted es w1 w' i _ 0%nat errs Hi1 eq_refl
                  ltac:(unfold reconnectAttempts; lia) ltac:(lia) Hsteps Hrun)
        as (g' & Hg' & Hpc' & Hsess & Hfac & Hpr).
      exists g'. simpl in *.
      split; [exact Hg'|]. split; [exact Hpc'|]. split; [exact Hsess|].
      split; [lia|]. split; [exact Hpr|]. split.
      * intros. apply Returned_is_final. exact Hpc'.
      * intros es' w'' Hrun'. eapply World_run_Returned; eassumption.
    + rewrite steps_of_cons_other in Hsteps by assumption.
      apply (IH w1); try assumption.
      eapply World_step_other; eassumption.
Qed.

Lemma HandleConnect_gives_up_after_ten_failures_witness :
  exists w',
    World_run probing ten_failures = Some w' /\
    exists g',
      w_goroutines w' !! 0%nat = Some g' /\
      g_pc g' = Returned /\
      g_session g' = first_session /\
      factory_calls (g_log g') = reconnectAttempts.
Proof.
  eexists. split; [evaluate|].
  destruct (HandleConnect_gives_up_after_ten_failures ten_failures probing _
              0%nat _ unreachable
              (repeat "gocql: unable to create session" reconnectAttempts)
              ltac:(evaluate) ltac:(evaluate) ltac:(discriminate)
              ltac:(evaluate) ltac:(evaluate) ltac:(evaluate))
    as (g' & Hg' & Hpc & Hsess & Hfac & _).
  exists g'. split; [exact Hg'|]. split; [exact Hpc|].
  split; [exact Hsess|exact Hfac].
Defined.

Lemma World_step_Run (w : World) (i : nat) (st : Step) (g g' : Goroutine)
    (started : list Goroutine) :
  w_goroutines w !! i = Some g ->
  HandleConnect_step (w_now w) (w_done w) g st = Some (g', started) ->
  World_step w (Run i st) =
  Some {| w_now := w_now w; w_done := w_done w;
          w_goroutines := <[i := g']> (w_goroutines w) ++ started |}.
Proof. intros Hi Hs. simpl. rewrite Hi, Hs. reflexivity. Qed.

Lemma lookup_insert_app_self (l started : list Goroutine) (i : nat)
    (g g' : Goroutine) :
  l !! i = Some g -> (<[i := g']> l ++ started) !! i = Some g'.
Proof.
  intros Hi. apply lookup_app_l_Some. apply list_lookup_insert_eq.
  eapply lookup_lt_Some; eassumption.
Qed.

(** C8. A goroutine just started by [Connect] can take its first two steps,
    creating the timer and receiving from it, without any time passing, and
    with them it issues its first probe; in every run, a goroutine that is
    in the select and has not probed yet finds its timer expired, so that
    its first probe can be issued at that very time; and in every run, each
    probe of a goroutine comes at least [pingInterval] (one second) after
    every earlier probe of that goroutine. *)
Theorem first_probe_at_once_then_one_per_interval
    (w w' : World) (es : list Event) (i j : nat) (g0 g : Goroutine) :
  fresh w ->
  w_goroutines w !! j = Some g0 ->
  World_run w es = Some w' ->
  w_goroutines w' !! i = Some g ->
  (exists w2 g2,
     World_run w [Run j Start; Run j SelectTimer] = Some w2 /\
     w_now w2 = w_now w /\
     w_goroutines w2 !! j = Some g2 /\
     g_pc g2 = Pinging /\
     probe_times (g_log g2) = [w_now w]) /\
  (g_pc g = Waiting -> probe_times (g_log g) = [] ->
   exists w2 g2,
     World_step w' (Run i SelectTimer) = Some w2 /\
     w_now w2 = w_now w' /\
     w_goroutines w2 !! i = Some g2 /\
     g_pc g2 = Pinging /\
     probe_times (g_log g2) = [w_now w']) /\
  pingInterval = 1000000000 /\
  spaced (probe_times (g_log g)).
Proof.
  intros Hfresh Hj Hrun Hi.
  pose proof (World_run_ok es w w' (fresh_ok w Hfresh) Hrun) as Hok.
  destruct (Forall_lookup_1 _ _ _ _ Hok Hi) as (_ & Hsp & Hat).
  split; [|split; [|split; [reflexivity|exact Hsp]]].
  - destruct (Forall_lookup_1 _ _ _ _ Hfresh Hj) as [Hpc Hlog].
    set (g1 := {| g_session := g_session g0; g_ctx := g_ctx g0;
                  g_pc := Waiting; g_timer := Some (w_now w + 0);
                  g_log := g_log g0 |}).
    set (g2 := {| g_session := g_session g0; g_ctx := g_ctx g0;
                  g_pc := Pinging; g_timer := None;
                  g_log := record (Probe (Session_s (g_session g0)))
                             (w_now w) (w_done w) g1 |}).
    assert (S1 : HandleConnect_step (w_now w) (w_done w) g0 Start
                 = Some (g1, [])).
    { unfold HandleConnect_step. rewrite Hpc. reflexivity. }
    assert (S2 : HandleConnect_step (w_now w) (w_done w) g1 SelectTimer
                 = Some (g2, [])).
    { unfold HandleConnect_step. simpl.
      destruct (Z.leb_spec (w_now w + 0) (w_now w)); [reflexivity|lia]. }
    eexists _, g2. split.
    + cbn [World_run]. rewrite (World_step_Run _ _ _ _ _ _ Hj S1).
      erewrite World_step_Run;
        [reflexivity | simpl; eapply lookup_insert_app_self; exact Hj
        | exact S2].
    + split; [reflexivity|]. split.
      * simpl. apply lookup_insert_app_self with (g := g1).
        eapply lookup_insert_app_self; exact Hj.
      * split; [reflexivity|]. simpl. rewrite Hlog. reflexivity.
  - intros Hpc Hnone. rewrite Hpc in Hat.
    destruct Hat as (t & Ht & _ & Hdue). specialize (Hdue Hnone).
    assert (S2 : HandleConnect_step (w_now w') (w_done w') g SelectTimer
                 = Some ({| g_session := g_session g; g_ctx := g_ctx g;
                            g_pc := Pinging; g_timer := None;
                            g_log := record (Probe (Session_s (g_session g)))
                                       (w_now w') (w_done w') g |}, [])).
    { unfold HandleConnect_step. rewrite Hpc, Ht.
      destruct (Z.leb_spec t (w_now w')); [reflexivity|lia]. }
    eexists _, _. split; [exact (World_step_Run _ _ _ _ _ _ Hi S2)|].
    split; [reflexivity|].
    split; [simpl; eapply lookup_insert_app_self; exact Hi|].
    split; [reflexivity|]. simpl. rewrite Hnone. reflexivity.
Qed.

Lemma first_probe_at_once_then_one_per_interval_witness :
  fresh (World_of 0 (go_HandleConnect first_session 0%nat)) /\
  exists w' g,
    World_run (World_of 0 (go_HandleConnect first_session 0%nat))
      first_probe_then_ten_refusals = Some w' /\
    w_goroutines w' !! 0%nat = Some g /\
    probe_times (g_log g) = [0] /\
    spaced (probe_times (g_log g)).
Proof.
  assert (Hf : fresh (World_of 0 (go_HandleConnect first_session 0%nat)))
    by (repeat constructor).
  split; [exact Hf|].
  eexists _, _. split; [evaluate|]. split; [evaluate|].
  split; [evaluate|].
  exact (proj2 (proj2 (proj2
    (first_probe_at_once_then_one_per_interval _ _
       first_probe_then_ten_refusals
       0%nat 0%nat _ _ Hf ltac:(evaluate) ltac:(evaluate) ltac:(evaluate))))).
Defined.


(** ** The reconnection loop in front of the driver *)

Lemma driver_step_PingReturn (answer : gocqlx.Answer) :
  driver_step (PingReturn answer) <->
  exists err, gocqlx.answer_err answer = Some err.
Proof.
  split.
  - intros (driver & s & ctx & Hdriver & ->).
    apply Hdriver. reflexivity.
  - intros [err Herr].
    exists (fun _ => answer), first_session, 0%nat. split; [|reflexivity].
    intros q dest _. exists err. exact Herr.
Qed.

Lemma driver_step_ConnectReturn (created : gocqlx.Session + string) :
  driver_step (ConnectReturn created) <-> exists err, created = inr err.
Proof.
  split.
  - intros (CreateSession & Hdriver & ->). apply Hdriver. reflexivity.
  - intros [err ->]. exists (fun _ => inr err). split; [|reflexivity].
    intros c _. exists err. reflexivity.
Qed.

Lemma driver_step_fails (g : Goroutine) (answer : gocqlx.Answer) :
  driver_step (PingReturn answer) ->
  Session_Ping (fun _ => answer) (g_session g) (g_ctx g) <> None.
Proof.
  intros H. apply driver_step_PingReturn in H as [err Herr].
  unfold Session_Ping. rewrite Herr. discriminate.
Qed.

Lemma cluster_up_obeys_gocql : obeys_gocql cluster_up.
Proof. intros c Hc. unfold cluster_up. rewrite Hc. eexists. reflexivity. Qed.

Ltac driver_events :=
  vm_compute;
  repeat (constructor;
          [first [exact I
                 | apply driver_step_PingReturn; eexists; reflexivity
                 | apply driver_step_ConnectReturn; eexists; reflexivity]|]);
  constructor.

(** C4. Cancelling the governing context does not end the calls. Cancelled
    while the first reconnection attempt is under way, the loop goes on to
    make the nine remaining factory calls; cancelled while the goroutine is
    in its first select, where the timer is due, the loop can take the
    timer branch and then makes its probe and all ten factory calls after
    the cancellation. Both runs are runs in front of the driver. *)
Theorem cancel_during_recovery_is_ignored :
  (Forall driver_event cancelled_in_recovery /\
   exists w' g,
     World_run (World_of 0 (go_HandleConnect first_session 0%nat))
       cancelled_in_recovery = Some w' /\
     w_goroutines w' !! 0%nat = Some g /\
     factory_calls (calls_after_cancel (g_log g)) = 9%nat) /\
  (Forall driver_event cancelled_at_first_wait /\
   exists w' g,
     World_run (World_of 0 (go_HandleConnect first_session 0%nat))
       cancelled_at_first_wait = Some w' /\
     w_goroutines w' !! 0%nat = Some g /\
     length (probe_times (calls_after_cancel (g_log g))) = 1%nat /\
     factory_calls (calls_after_cancel (g_log g)) = 10%nat) /\
  ~ cancel_ends_all_calls.
Proof.
  split; [|split].
  - split; [unfold cancelled_in_recovery; driver_events|].
    eexists _, _. split; [evaluate|]. split; evaluate.
  - split; [unfold cancelled_at_first_wait; driver_events|].
    eexists _, _. split; [evaluate|]. split; [evaluate|]. split; evaluate.
  - intros H.
    specialize (H (World_of 0 (go_HandleConnect first_session 0%nat)) _
                  cancelled_in_recovery 0%nat _
                  ltac:(repeat constructor) ltac:(evaluate) ltac:(evaluate)).
    vm_compute in H. discriminate H.
Qed.

(** ** Further properties: cluster options *)

(** X1. Whatever options [Connect] is given, also options that write them,
    the configuration handed to the driver has CQL version 3.11, the value
    of the constant [version], and protocol version 3. *)
Theorem Connect_pins_versions (options : list Option) :
  gocql.CQLVersion (Connect_cluster options) = version /\
  gocql.ProtoVersion (Connect_cluster options) = 3 /\
  gocql.CQLVersion
    (Connect_cluster (options ++ [gocql.set_CQLVersion "4.0.0";
                                  gocql.set_ProtoVersion 4])) = "3.11" /\
  gocql.ProtoVersion
    (Connect_cluster (options ++ [gocql.set_CQLVersion "4.0.0";
                                  gocql.set_ProtoVersion 4])) = 3.
Proof. rewrite !Connect_cluster_unfold. repeat split. Qed.




(** X3. Adding options and applying them compose: applying [opts.add(o...)]
    is applying [opts] and then [o]; adding nothing changes nothing; and a
    list of options none of which writes a field leaves the field as it was,
    the empty list leaving the whole configuration as it was. *)
Theorem Options_add_then_apply {A} (get : gocql.ClusterConfig -> A)
    (opts o : list Option) (c : gocql.ClusterConfig) :
  Forall (keeps get) o ->
  Options_apply (Options_add opts o) c = Options_apply o (Options_apply opts c) /\
  Options_apply (Options_add opts []) c = Options_apply opts c /\
  Options_apply [] c = c /\
  get (Options_apply (Options_add opts o) c) = get (Options_apply opts c).
Proof.
  intros Hkeep. unfold Options_add. rewrite app_nil_r, Options_apply_app.
  repeat split. apply Options_apply_keeps. exact Hkeep.
Qed.

Lemma Options_add_then_apply_witness :
  Forall (keeps gocql.Hosts) [WithKeyspace "ks"; WithTimeout time.Second] /\
  gocql.Hosts
    (Options_apply
       (Options_add [WithHosts ["10.0.0.1"; "10.0.0.2"]]
          [WithKeyspace "ks"; WithTimeout time.Second]) gocql.NewCluster)
  = gocql.Hosts
      (Options_apply [WithHosts ["10.0.0.1"; "10.0.0.2"]] gocql.NewCluster).
Proof.
  assert (H : Forall (keeps gocql.Hosts)
                [WithKeyspace "ks"; WithTimeout time.Second])
    by (repeat constructor).
  split; [exact H|].
  exact (proj2 (proj2 (proj2
    (Options_add_then_apply gocql.Hosts [WithHosts ["10.0.0.1"; "10.0.0.2"]]
       [WithKeyspace "ks"; WithTimeout time.Second] gocql.NewCluster H)))).
Defined.




(** ** Further properties: query options and query methods *)

(** X5. Resolving query overrides, for any field: the value written by an
    override is the resolved one when no later override writes the field,
    and a field none of the overrides writes resolves to its zero value
    (nil, or the empty list). *)
Theorem resolve_keeps_last_write {A} (get : QueryOption -> A)
    (pre post : list QueryOptionFunc) (o : QueryOptionFunc) (v : A) :
  sets get o v ->
  Forall (keeps get) post ->
  get (resolve (pre ++ o :: post)) = v /\
  get (resolve post) = get QueryOption_zero.
Proof.
  intros Ho Hpost. split; [apply resolve_last_wins; assumption|].
  unfold resolve. apply QueryOptions_apply_keeps. exact Hpost.
Qed.

Lemma resolve_keeps_last_write_witness :
  sets names (Names ["id"; "name"]) ["id"; "name"] /\
  Forall (keeps names) [Bind [AnyInt 7]; Idenpotent true] /\
  names (resolve ([Names ["k"]; Strict] ++
                  Names ["id"; "name"] :: [Bind [AnyInt 7]; Idenpotent true]))
    = ["id"; "name"] /\
  names (resolve [Bind [AnyInt 7]; Idenpotent true]) = [].
Proof.
  assert (H1 : sets names (Names ["id"; "name"]) ["id"; "name"])
    by (intros c; reflexivity).
  assert (H2 : Forall (keeps names) [Bind [AnyInt 7]; Idenpotent true])
    by (repeat constructor).
  split; [exact H1|]. split; [exact H2|].
  exact (resolve_keeps_last_write names [Names ["k"]; Strict]
           [Bind [AnyInt 7]; Idenpotent true] (Names ["id"; "name"])
           ["id"; "name"] H1 H2).
Defined.

Lemma exported_strict (o : QueryOptionFunc) (qo : QueryOption) :
  exported o ->
  (o = Strict /\ strict (o qo) = Some true) \/ strict (o qo) = strict qo.
Proof.
  intros [->|[[i ->]|[[c ->]|[[r ->]|[[v ->]|[ns ->]]]]]];
    [left; split; reflexivity | right; reflexivity ..].
Qed.

Lemma QueryOptions_apply_strict (l : list QueryOptionFunc) :
  Forall exported l ->
  forall qo,
    strict (QueryOptions_apply l qo) = Some true <->
    strict qo = Some true \/ Exists (fun o => o = Strict) l.
Proof.
  induction 1 as [|o l Ho _ IH]; intros qo; simpl.
  - rewrite Exists_nil. tauto.
  - rewrite IH, Exists_cons. unfold QueryOptionFunc_apply.
    destruct (exported_strict o qo Ho) as [[-> E]|E]; rewrite E.
    + simpl. tauto.
    + split; [tauto|]. intros [H|[->|H]]; auto.
Qed.

Lemma QueryOptions_apply_never_lax (l : list QueryOptionFunc) :
  Forall exported l ->
  forall qo, strict qo <> Some false ->
             strict (QueryOptions_apply l qo) <> Some false.
Proof.
  induction 1 as [|o l Ho _ IH]; intros qo Hqo; simpl; [exact Hqo|].
  apply IH. unfold QueryOptionFunc_apply.
  destruct (exported_strict o qo Ho) as [[_ E]|E]; rewrite E;
    [discriminate|exact Hqo].
Qed.

Lemma In_CallStrict_calls_in_order (qo : QueryOption) :
  In gocqlx.CallStrict (calls_in_order qo) <-> strict qo = Some true.
Proof.
  unfold calls_in_order.
  destruct (strict qo) as [[|]|], (idenpoten qo), (con qo), (rp qo); simpl;
    intuition congruence.
Qed.

(** X6. With the overrides the package exports, [Get] and [Iter] make the
    [Strict] call on the query exactly when [Strict()] is among the
    overrides, wherever it stands in the list: no exported override takes
    strict binding back. *)
Theorem Strict_is_applied_iff_given (s : Session) (ctx : Context)
    (query : string) (dest : gocqlx.Dest) (optionFunc : list QueryOptionFunc) :
  Forall exported optionFunc ->
  (In gocqlx.CallStrict
      (gocqlx.q_calls
         (gocqlx.query_of (Session_Get s ctx query dest optionFunc)))
   <-> Exists (fun o => o = Strict) optionFunc) /\
  (In gocqlx.CallStrict
      (gocqlx.q_calls (gocqlx.query_of (Session_Iter s ctx query optionFunc)))
   <-> Exists (fun o => o = Strict) optionFunc) /\
  strict (resolve optionFunc) <> Some false.
Proof.
  intros Hexp.
  assert (E : strict (resolve optionFunc) = Some true <->
              Exists (fun o => o = Strict) optionFunc).
  { unfold resolve. rewrite (QueryOptions_apply_strict _ Hexp). simpl.
    intuition discriminate. }
  unfold Session_Get, Session_Iter. simpl.
  rewrite !QueryOption_apply_calls. simpl. fold (resolve optionFunc).
  rewrite In_CallStrict_calls_in_order.
  split; [exact E|]. split; [exact E|].
  apply QueryOptions_apply_never_lax; [exact Hexp|discriminate].
Qed.

Lemma Strict_is_applied_iff_given_witness :
  Forall exported [Bind [AnyInt 7]; Strict; Idenpotent false] /\
  In gocqlx.CallStrict
    (gocqlx.q_calls
       (gocqlx.query_of
          (Session_Get first_session 0%nat "SELECT a FROM t WHERE k = ?"
             (gocqlx.PtrStruct "Row")
             [Bind [AnyInt 7]; Strict; Idenpotent false]))).
Proof.
  assert (H : Forall exported [Bind [AnyInt 7]; Strict; Idenpotent false]).
  { constructor; [right; right; right; right; left; eexists; reflexivity|].
    constructor; [left; reflexivity|].
    constructor; [right; left; eexists; reflexivity|constructor]. }
  split; [exact H|].
  apply (proj1 (Strict_is_applied_iff_given first_session 0%nat
                  "SELECT a FROM t WHERE k = ?" (gocqlx.PtrStruct "Row")
                  [Bind [AnyInt 7]; Strict; Idenpotent false] H)).
  apply Exists_cons_tl, Exists_cons_hd. reflexivity.
Defined.

Lemma QueryOption_apply_target (qo : QueryOption) (q : gocqlx.Queryx) :
  gocqlx.q_session (QueryOption_apply qo q) = gocqlx.q_session q /\
  gocqlx.q_ctx (QueryOption_apply qo q) = gocqlx.q_ctx q /\
  gocqlx.q_stmt (QueryOption_apply qo q) = gocqlx.q_stmt q /\
  gocqlx.q_names (QueryOption_apply qo q) = gocqlx.q_names q.
Proof.
  unfold QueryOption_apply.
  destruct (strict qo) as [[|]|], (idenpoten qo), (con qo), (rp qo);
    repeat split.
Qed.

(** X7. Whatever overrides are given, each of [Get], [Select] and [Iter]
    runs a query on the handle [Unwrap] returns, with the context and the
    statement of the call unchanged and with the resolved names, and ends it
    with the terminal method of its own name; with the same arguments the
    three differ in the terminal method and, for [Select], in the builder
    calls only. *)
Theorem query_methods_run_on_the_current_handle (s : Session) (ctx : Context)
    (query : string) (dest : gocqlx.Dest) (optionFunc : list QueryOptionFunc) :
  let get := Session_Get s ctx query dest optionFunc in
  let select := Session_Select s ctx query dest optionFunc in
  let iter := Session_Iter s ctx query optionFunc in
  runs_on get s ctx query (names (resolve optionFunc)) /\
  runs_on select s ctx query (names (resolve optionFunc)) /\
  runs_on iter s ctx query (names (resolve optionFunc)) /\
  get = gocqlx.Get (gocqlx.query_of get) dest /\
  select = gocqlx.Select (gocqlx.query_of select) dest /\
  iter = gocqlx.Iter (gocqlx.query_of iter) /\
  gocqlx.query_of get = gocqlx.query_of iter /\
  gocqlx.query_of get =
    QueryOption_apply (resolve optionFunc) (gocqlx.query_of select).
Proof.
  simpl. unfold runs_on, Session_Get, Session_Select, Session_Iter. simpl.
  fold (resolve optionFunc).
  destruct (QueryOption_apply_target (resolve optionFunc)
              (gocqlx.ContextQuery (Session_s s) ctx query
                 (names (resolve optionFunc)))) as (-> & -> & -> & ->).
  repeat split.
Qed.

Lemma calls_in_order_ranks (qo : QueryOption) :
  StronglySorted lt (map Call_rank (calls_in_order qo)).
Proof.
  unfold calls_in_order.
  destruct (strict qo) as [[|]|], (idenpoten qo), (con qo), (rp qo); simpl;
    repeat (constructor; simpl; try lia).
Qed.

(** X8. However many overrides are given and in whatever order, [Get] and
    [Iter] make their builder calls in the order strict, idempotent,
    consistency, retry policy, at most one of each kind and so at most four
    in all. *)
Theorem builder_calls_once_each_in_order (s : Session) (ctx : Context)
    (query : string) (dest : gocqlx.Dest) (optionFunc : list QueryOptionFunc) :
  StronglySorted lt
    (map Call_rank
       (gocqlx.q_calls
          (gocqlx.query_of (Session_Get s ctx query dest optionFunc)))) /\
  StronglySorted lt
    (map Call_rank
       (gocqlx.q_calls
          (gocqlx.query_of (Session_Iter s ctx query optionFunc)))) /\
  (length (gocqlx.q_calls
             (gocqlx.query_of (Session_Get s ctx query dest optionFunc)))
   <= 4)%nat /\
  (length (gocqlx.q_calls
             (gocqlx.query_of (Session_Iter s ctx query optionFunc)))
   <= 4)%nat.
Proof.
  unfold Session_Get, Session_Iter. simpl.
  rewrite !QueryOption_apply_calls. simpl. fold (resolve optionFunc).
  pose proof (calls_in_order_ranks (resolve optionFunc)) as Hs.
  split; [exact Hs|]. split; [exact Hs|].
  assert (length (calls_in_order (resolve optionFunc)) <= 4)%nat.
  { unfold calls_in_order.
    destruct (strict (resolve optionFunc)) as [[|]|],
      (idenpoten (resolve optionFunc)), (con (resolve optionFunc)),
      (rp (resolve optionFunc)); simpl; lia. }
  split; assumption.
Qed.



(** ** Further properties: the reconnection loop *)

Lemma HandleConnect_step_keeps_session (now : Z) (done : bool)
    (g g' : Goroutine) (st : Step) (started : list Goroutine) :
  no_new_session st ->
  HandleConnect_step now done g st = Some (g', started) ->
  g_session g' = g_session g /\ started = [].
Proof.
  unfold HandleConnect_step. intros Hst.
  destruct (g_pc g), st as [| | |answer|[h|err]]; try discriminate;
    try contradiction.
  - intros [= <- <-]. split; reflexivity.
  - destruct done; [|discriminate]. intros [= <- <-]. split; reflexivity.
  - destruct (g_timer g) as [t|]; [|discriminate].
    destruct (t <=? now); [|discriminate]. intros [= <- <-].
    split; reflexivity.
  - destruct (Session_Ping _ _ _); intros [= <- <-]; split; reflexivity.
  - simpl. destruct (S a <? reconnectAttempts)%nat; intros [= <- <-];
      split; reflexivity.
Qed.

(** X11. The session of a goroutine is written by nothing but a successful
    reconnection attempt of that very goroutine: through any run in which
    the goroutine makes no such step, whatever else happens (failed probes,
    failed attempts, cancellation, the steps of all other goroutines), its
    session holds the same handle and options. *)
Theorem session_changes_only_by_own_reconnection
    (es : list Event) (w w' : World) (i : nat) (g : Goroutine) :
  w_goroutines w !! i = Some g ->
  Forall no_new_session (steps_of i es) ->
  World_run w es = Some w' ->
  exists g', w_goroutines w' !! i = Some g' /\ g_session g' = g_session g.
Proof.
  revert w g. induction es as [|e es IH]; intros w g Hi Hsteps; simpl.
  - intros [= <-]. exists g. split; [exact Hi|reflexivity].
  - destruct (World_step w e) as [w1|] eqn:E; [|discriminate].
    intros Hrun.
    destruct (Event_self_or_other i e) as [[st ->]|Hne].
    + rewrite steps_of_cons_self in Hsteps.
      apply Forall_cons in Hsteps as [Hst Hsteps].
      destruct (World_step_self _ _ _ _ _ Hi E) as (g1 & started & Hs & Hi1 & _).
      destruct (HandleConnect_step_keeps_session _ _ _ _ _ _ Hst Hs)
        as [Hsess _].
      destruct (IH w1 g1 Hi1 Hsteps Hrun) as (g' & Hg' & Hsess').
      exists g'. split; [exact Hg'|congruence].
    + rewrite steps_of_cons_other in Hsteps by assumption.
      exact (IH w1 g (World_step_other _ _ _ _ _ Hne Hi E) Hsteps Hrun).
Qed.

Lemma session_changes_only_by_own_reconnection_witness :
  w_goroutines (World_of 0 (go_HandleConnect first_session 0%nat)) !! 0%nat
    = Some (go_HandleConnect first_session 0%nat) /\
  Forall no_new_session (steps_of 0 cancelled_in_recovery) /\
  exists w' g',
    World_run (World_of 0 (go_HandleConnect first_session 0%nat))
      cancelled_in_recovery = Some w' /\
    w_goroutines w' !! 0%nat = Some g' /\
    g_session g' = first_session.
Proof.
  assert (H : Forall no_new_session (steps_of 0 cancelled_in_recovery))
    by (vm_compute; repeat constructor).
  split; [reflexivity|]. split; [exact H|].
  eexists. 
  destruct (session_changes_only_by_own_reconnection cancelled_in_recovery
              (World_of 0 (go_HandleConnect first_session 0%nat)) _ 0%nat _
              eq_refl H ltac:(evaluate)) as (g' & Hg' & Hsess).
  exists g'. split; [evaluate|]. split; [exact Hg'|exact Hsess].
Defined.


(** ** Further properties: what the calls of a goroutine add up to *)

Section Preservation.
Variable P : Z -> Goroutine -> Prop.
Hypothesis P_later :
  forall now now' g, now <= now' -> P now g -> P now' g.
Hypothesis P_step :
  forall now done g st g' started,
    P now g -> HandleConnect_step now done g st = Some (g', started) ->
    P now g' /\ Forall (P now) started.

Lemma World_step_preserves (w w' : World) (e : Event) :
  Forall (P (w_now w)) (w_goroutines w) ->
  World_step w e = Some w' ->
  Forall (P (w_now w')) (w_goroutines w').
Proof using P_later P_step.
  intros Hall. destruct e as [|d|i st]; simpl.
  - intros [= <-]. exact Hall.
  - destruct (Z.leb_spec 0 d) as [Hd|]; [|discriminate]. intros [= <-].
    simpl. eapply Forall_impl; [exact Hall|]. intros g.
    apply P_later. lia.
  - destruct (w_goroutines w !! i) as [g|] eqn:Ei; [|discriminate].
    destruct (HandleConnect_step _ _ _ _) as [[g' started]|] eqn:Es;
      [|discriminate].
    intros [= <-]. simpl.
    destruct (P_step _ _ _ _ _ _ (Forall_lookup_1 _ _ _ _ Hall Ei) Es)
      as [Hg' Hst].
    apply Forall_app. split; [|exact Hst].
    apply Forall_insert; assumption.
Qed.

Lemma World_run_preserves (es : list Event) (w w' : World) :
  Forall (P (w_now w)) (w_goroutines w) ->
  World_run w es = Some w' ->
  Forall (P (w_now w')) (w_goroutines w').
Proof using P_later P_step.
  revert w. induction es as [|e es IH]; intros w Hall; simpl.
  - intros [= <-]. exact Hall.
  - destruct (World_step w e) as [w1|] eqn:E; [|discriminate].
    apply IH. eapply World_step_preserves; eassumption.
Qed.
End Preservation.

Lemma Goroutine_accounting_later (now now' : Z) (g : Goroutine) :
  now <= now' -> Goroutine_accounting now g -> Goroutine_accounting now' g.
Proof.
  unfold Goroutine_accounting. intros Hle.
  destruct (g_pc g); try (intros H; exact H).
  intros [(t & Ht & Hbound) Hf]. split; [|exact Hf].
  exists t. split; [exact Ht|lia].
Qed.

Lemma Goroutine_accounting_step (now : Z) (done : bool) (g : Goroutine)
    (st : Step) (g' : Goroutine) (started : list Goroutine) :
  Goroutine_accounting now g ->
  HandleConnect_step now done g st = Some (g', started) ->
  Goroutine_accounting now g' /\ Forall (Goroutine_accounting now) started.
Proof.
  unfold HandleConnect_step, Goroutine_accounting at 1.
  destruct (g_pc g) eqn:Epc, st as [| | |answer|[h|err]]; try discriminate.
  - (* Start *)
    intros Hlog [= <- <-]. split; [|constructor].
    unfold Goroutine_accounting. simpl. rewrite Hlog. simpl. split.
    + exists (now + 0). split; [reflexivity|].
      unfold pingInterval, time.Second. lia.
    + lia.
  - (* SelectDone *)
    intros [_ Hf]. destruct done; [|discriminate]. intros [= <- <-].
    split; [|constructor]. unfold Goroutine_accounting. simpl.
    split; [reflexivity|exact Hf].
  - (* SelectTimer *)
    intros [(t & Ht & _) Hf]. rewrite Ht.
    destruct (t <=? now); [|discriminate]. intros [= <- <-].
    split; [|constructor]. unfold Goroutine_accounting, record. simpl.
    split; [reflexivity|]. unfold reconnectAttempts in *. split; lia.
  - (* PingReturn *)
    intros (Ht & Hp & Hf).
    destruct (Session_Ping _ _ _); intros [= <- <-]; (split; [|constructor]);
      unfold Goroutine_accounting, record; simpl.
    + split; [exact Ht|]. split; [exact Hp|].
      unfold reconnectAttempts in *. split; lia.
    + split; [|unfold reconnectAttempts in *; lia].
      exists (now + pingInterval). split; [reflexivity|lia].
  - (* ConnectReturn, a session *)
    intros (Ht & Hp & Ha & Hf). simpl. intros [= <- <-]. split.
    + unfold Goroutine_accounting. simpl.
      split; [|unfold reconnectAttempts in *; lia].
      exists (now + pingInterval). split; [reflexivity|lia].
    + constructor; [reflexivity|constructor].
  - (* ConnectReturn, an error *)
    intros (Ht & Hp & Ha & Hf). simpl.
    destruct (Nat.ltb_spec (S a) reconnectAttempts); intros [= <- <-];
      (split; [|constructor]); unfold Goroutine_accounting, record; simpl.
    + split; [exact Ht|]. split; [exact Hp|]. split; [assumption|].
      unfold reconnectAttempts in *. lia.
    + split; [reflexivity|]. unfold reconnectAttempts in *. lia.
Qed.

Lemma fresh_accounting (w : World) :
  fresh w -> Forall (Goroutine_accounting (w_now w)) (w_goroutines w).
Proof.
  unfold fresh. intros H. eapply Forall_impl; [exact H|]. simpl.
  intros g [Hpc Hlog]. unfold Goroutine_accounting. rewrite Hpc. exact Hlog.
Qed.

Lemma reachable_accounting (es : list Event) (w w' : World) (i : nat)
    (g : Goroutine) :
  fresh w -> World_run w es = Some w' -> w_goroutines w' !! i = Some g ->
  Goroutine_accounting (w_now w') g.
Proof.
  intros Hfresh Hrun Hi.
  eapply Forall_lookup_1; [|exact Hi].
  eapply (World_run_preserves Goroutine_accounting
            Goroutine_accounting_later Goroutine_accounting_step);
    [apply fresh_accounting; exact Hfresh|exact Hrun].
Qed.

(** X14. In every run, a goroutine has made at most [reconnectAttempts]
    factory calls per probe: the recovery that follows a failed probe never
    calls the factory an eleventh time, and no factory call is made without
    a probe before it. *)
Theorem at_most_ten_factory_calls_per_probe
    (es : list Event) (w w' : World) (i : nat) (g : Goroutine) :
  fresh w -> World_run w es = Some w' -> w_goroutines w' !! i = Some g ->
  (factory_calls (g_log g)
   <= reconnectAttempts * length (probe_times (g_log g)))%nat /\
  (probe_times (g_log g) = [] -> factory_calls (g_log g) = 0%nat).
Proof.
  intros Hfresh Hrun Hi.
  pose proof (reachable_accounting es w w' i g Hfresh Hrun Hi) as H.
  unfold Goroutine_accounting in H.
  assert (factory_calls (g_log g)
          <= reconnectAttempts * length (probe_times (g_log g)))%nat.
  { destruct (g_pc g).
    - rewrite H. simpl. lia.
    - apply H.
    - destruct H as (_ & Hp & Hf). unfold reconnectAttempts in *. lia.
    - destruct H as (_ & Hp & Ha & Hf). unfold reconnectAttempts in *. lia.
    - apply H. }
  split; [assumption|].
  intros Hnone. rewrite Hnone in *. simpl in *. lia.
Qed.

Lemma at_most_ten_factory_calls_per_probe_witness :
  fresh (World_of 0 (go_HandleConnect first_session 0%nat)) /\
  exists w' g,
    World_run (World_of 0 (go_HandleConnect first_session 0%nat))
      cancelled_in_recovery = Some w' /\
    w_goroutines w' !! 0%nat = Some g /\
    length (probe_times (g_log g)) = 1%nat /\
    (factory_calls (g_log g) <= reconnectAttempts * 1)%nat.
Proof.
  assert (Hf : fresh (World_of 0 (go_HandleConnect first_session 0%nat)))
    by (repeat constructor).
  split; [exact Hf|].
  eexists _, _. split; [evaluate|]. split; [evaluate|].
  split; [evaluate|].
  exact (proj1 (at_most_ten_factory_calls_per_probe cancelled_in_recovery
                  _ _ 0%nat _ Hf ltac:(evaluate) ltac:(evaluate))).
Defined.

(** X15. In every run, the timer of a goroutine is armed exactly while the
    goroutine is in the select, never more than one interval ahead of the
    clock; so a goroutine in the select can issue its next probe as soon as
    the timer's time has come, which takes one interval at most. *)
Theorem timer_is_armed_while_waiting
    (es : list Event) (w w' : World) (i : nat) (g : Goroutine) :
  fresh w -> World_run w es = Some w' -> w_goroutines w' !! i = Some g ->
  (g_pc g = Waiting ->
   exists t,
     g_timer g = Some t /\ t <= w_now w' + pingInterval /\
     forall d, 0 <= d -> t <= w_now w' + d ->
       exists w2 g2,
         World_run w' [Advance d; Run i SelectTimer] = Some w2 /\
         w_goroutines w2 !! i = Some g2 /\ g_pc g2 = Pinging /\
         probe_times (g_log g2) = (w_now w' + d) :: probe_times (g_log g)) /\
  (g_pc g = Pinging \/ (exists a, g_pc g = Reconnecting a) \/
   g_pc g = Returned -> g_timer g = None).
Proof.
  intros Hfresh Hrun Hi.
  pose proof (reachable_accounting es w w' i g Hfresh Hrun Hi) as H.
  unfold Goroutine_accounting in H. split.
  - intros Hpc. rewrite Hpc in H. destruct H as [(t & Ht & Hbound) _].
    exists t. split; [exact Ht|]. split; [exact Hbound|].
    intros d Hd Hdue. cbn [World_run World_step].
    destruct (Z.leb_spec 0 d); [|lia]. simpl.
    rewrite Hi. unfold HandleConnect_step. rewrite Hpc, Ht.
    destruct (Z.leb_spec t (w_now w' + d)); [|lia].
    eexists _, _. split; [reflexivity|]. simpl.
    split; [eapply lookup_insert_app_self; exact Hi|].
    split; reflexivity.
  - intros [Hpc|[[a Hpc]|Hpc]]; rewrite Hpc in H; apply H.
Qed.

Lemma timer_is_armed_while_waiting_witness :
  fresh (World_of 0 (go_HandleConnect first_session 0%nat)) /\
  exists w' g,
    World_run (World_of 0 (go_HandleConnect first_session 0%nat))
      [Run 0 Start] = Some w' /\
    w_goroutines w' !! 0%nat = Some g /\
    g_pc g = Waiting /\
    exists t, g_timer g = Some t /\ t <= w_now w' + pingInterval.
Proof.
  assert (Hf : fresh (World_of 0 (go_HandleConnect first_session 0%nat)))
    by (repeat constructor).
  split; [exact Hf|].
  eexists _, _. split; [evaluate|]. split; [evaluate|].
  split; [evaluate|].
  destruct (proj1 (timer_is_armed_while_waiting [Run 0 Start]
                     _ _ 0%nat _ Hf ltac:(evaluate) ltac:(evaluate))
              ltac:(evaluate)) as (t & Ht & Hb & _).
  exists t. split; [exact Ht|exact Hb].
Defined.

Lemma Goroutine_uncancelled_step (now : Z) (g : Goroutine) (st : Step)
    (g' : Goroutine) (started : list Goroutine) :
  Goroutine_uncancelled g ->
  HandleConnect_step now false g st = Some (g', started) ->
  Goroutine_uncancelled g' /\ Forall Goroutine_uncancelled started.
Proof.
  unfold HandleConnect_step, Goroutine_uncancelled at 1.
  destruct (g_pc g) eqn:Epc, st as [| | |answer|[h|err]]; try discriminate.
  - intros _ [= <- <-]. split; constructor.
  - intros _. destruct (g_timer g) as [t|]; [|discriminate].
    destruct (t <=? now); [|discriminate]. intros [= <- <-].
    split; constructor.
  - intros _. destruct (Session_Ping _ _ _); intros [= <- <-];
      (split; [|constructor]); unfold Goroutine_uncancelled; simpl;
      [|exact I].
    split; [unfold reconnectAttempts; lia|reflexivity].
  - intros _. simpl. intros [= <- <-]. split; [exact I|].
    constructor; [exact I|constructor].
  - intros [Ha Htake]. simpl.
    destruct (Nat.ltb_spec (S a) reconnectAttempts) as [Hlt|Hge];
      intros [= <- <-]; (split; [|constructor]);
      unfold Goroutine_uncancelled; cbn [g_pc g_log].
    + split; [exact Hlt|]. unfold record, kinds.
      change (Factory :: take (S a) (kinds (g_log g))
              = Factory :: repeat Factory (S a)).
      rewrite Htake. reflexivity.
    + assert (S a = reconnectAttempts) as <- by lia. exact Htake.
Qed.

Lemma World_run_uncancelled (es : list Event) (w w' : World) :
  w_done w = false ->
  Forall (fun e => e <> Cancel) es ->
  Forall Goroutine_uncancelled (w_goroutines w) ->
  World_run w es = Some w' ->
  w_done w' = false /\ Forall Goroutine_uncancelled (w_goroutines w').
Proof.
  revert w. induction es as [|e es IH]; intros w Hdone Hes Hall; simpl.
  - intros [= <-]. split; assumption.
  - apply Forall_cons in Hes as [He Hes].
    destruct (World_step w e) as [w1|] eqn:E; [|discriminate].
    apply IH; [|exact Hes|]; destruct e as [|d|i st]; simpl in E;
      try contradiction.
    + destruct (0 <=? d); [|discriminate]. injection E as <-. exact Hdone.
    + destruct (w_goroutines w !! i) as [g|]; [|discriminate].
      destruct (HandleConnect_step _ _ _ _) as [[g' started]|];
        [|discriminate].
      injection E as <-. exact Hdone.
    + destruct (0 <=? d); [|discriminate]. injection E as <-. exact Hall.
    + destruct (w_goroutines w !! i) as [g|] eqn:Ei; [|discriminate].
      rewrite Hdone in E.
      destruct (HandleConnect_step _ _ _ _) as [[g' started]|] eqn:Es;
        [|discriminate].
      injection E as <-. simpl.
      destruct (Goroutine_uncancelled_step _ _ _ _ _
                  (Forall_lookup_1 _ _ _ _ Hall Ei) Es) as [Hg' Hst].
      apply Forall_app. split; [|exact Hst].
      apply Forall_insert; assumption.
Qed.

(** X16. As long as the governing context is not cancelled, the loop ends in
    one way only: in a run without cancellation a goroutine cannot take the
    [ctx.Done()] branch of the select, and one that has returned made
    [reconnectAttempts] factory calls in a row as its last calls. *)
Theorem loop_ends_only_by_cancel_or_ten_failures
    (es : list Event) (w w' : World) (i : nat) (g : Goroutine) :
  fresh w ->
  w_done w = false ->
  Forall (fun e => e <> Cancel) es ->
  World_run w es = Some w' ->
  w_goroutines w' !! i = Some g ->
  World_step w' (Run i SelectDone) = None /\
  (g_pc g = Returned ->
   take reconnectAttempts (kinds (g_log g))
     = repeat Factory reconnectAttempts).
Proof.
  intros Hfresh Hdone Hes Hrun Hi.
  assert (Hall : Forall Goroutine_uncancelled (w_goroutines w)).
  { eapply Forall_impl; [exact Hfresh|]. simpl. intros g0 [Hpc _].
    unfold Goroutine_uncancelled. rewrite Hpc. exact I. }
  destruct (World_run_uncancelled es w w' Hdone Hes Hall Hrun)
    as [Hdone' Hall'].
  split.
  - simpl. rewrite Hi, Hdone'. unfold HandleConnect_step.
    destruct (g_pc g); reflexivity.
  - intros Hpc. pose proof (Forall_lookup_1 _ _ _ _ Hall' Hi) as H.
    unfold Goroutine_uncancelled in H. rewrite Hpc in H. exact H.
Qed.

Lemma loop_ends_only_by_cancel_or_ten_failures_witness :
  fresh (World_of 0 (go_HandleConnect first_session 0%nat)) /\
  Forall (fun e => e <> Cancel)
    ([Run 0 Start; Run 0 SelectTimer] ++ ten_failures) /\
  exists w' g,
    World_run (World_of 0 (go_HandleConnect first_session 0%nat))
      ([Run 0 Start; Run 0 SelectTimer] ++ ten_failures) = Some w' /\
    w_goroutines w' !! 0%nat = Some g /\
    g_pc g = Returned /\
    take reconnectAttempts (kinds (g_log g))
      = repeat Factory reconnectAttempts.
Proof.
  assert (Hf : fresh (World_of 0 (go_HandleConnect first_session 0%nat)))
    by (repeat constructor).
  assert (Hes : Forall (fun e => e <> Cancel)
                  ([Run 0 Start; Run 0 SelectTimer] ++ ten_failures))
    by (vm_compute; repeat constructor; discriminate).
  split; [exact Hf|]. split; [exact Hes|].
  eexists _, _. split; [evaluate|]. split; [evaluate|].
  split; [evaluate|].
  exact (proj2 (loop_ends_only_by_cancel_or_ten_failures
                  ([Run 0 Start; Run 0 SelectTimer] ++ ten_failures)
                  _ _ 0%nat _ Hf eq_refl Hes ltac:(evaluate) ltac:(evaluate))
           ltac:(evaluate)).
Defined.

(** ** One loop for each session *)






